(** * SVR_model2.2.py : solar-irradiance forecasting script

    A shallow embedding of the script [SVR_model2.2.py] and of the parts of
    pandas, numpy and scikit-learn it calls, followed by the properties of
    the pipeline: lag windowing, chronological split, min-max scaling, the
    error metrics, the two [test_index] computations and the per-town
    breakdown.

    Conventions.
    - In the pipeline a Python [float] is a rational number ([Q]) and
      [NaN] in a pandas column is [None]: the arrays hold the exact values
      and rounding is abstracted.  Where rounding decides a property the
      computation is replayed on binary64 floats: [int(len(X) * 0.8)],
      which fixes the split, and the two error metrics of lines 99-100,
      whose order depends on it.  The quotients of the per-town MAPE,
      which may be infinite or NaN, are values of [float_value].
    - A script run is a value of the [script] monad: the events it emitted
      (printed lines, library calls, figures) and how it ended. *)

From Stdlib Require Import String.
From Stdlib Require Import ZArith QArith Qabs Qminmax Qround List Bool Lia.
From Stdlib Require Import Floats Uint63.
From Stdlib Require Import Reals Qreals Psatz.
From Stdlib Require Import Permutation Sorted.
From Stdlib Require OrderedTypeEx.
Import ListNotations.

Set Implicit Arguments.
Set Warnings "-abstract-large-number".

#[local] Close Scope R_scope.
#[local] Close Scope Q_scope.
#[local] Open Scope string_scope.
#[local] Open Scope nat_scope.
#[local] Open Scope list_scope.

(* ===================================================================== *)
(** ** Python sequences *)
(* ===================================================================== *)

Section PySeq.
Context {A : Type}.

(** [range(a, b)] *)
Definition range (a b : nat) : list nat := seq a (b - a).

(** [l[a:b]] for non-negative bounds; Python clips both to [len(l)]. *)
Definition slice (l : list A) (a b : nat) : list A :=
  firstn (b - a) (skipn a l).

(** [l[a:]] *)
Definition slice_from (l : list A) (a : nat) : list A := skipn a l.

(** [Series.iloc[i]] for [i >= 0]: IndexError outside the series. *)
Definition iloc (l : list A) (i : nat) : option A := nth_error l i.

(** [DataFrame.tail(n)]: the last [n] rows, all of them if fewer. *)
Definition tail (n : nat) (l : list A) : list A :=
  skipn (length l - n) l.
End PySeq.

(* ===================================================================== *)
(** ** Exceptions, events and the script monad *)
(* ===================================================================== *)

(** The library calls of the script, by call site. *)
Inductive call : Type :=
| scaler_X_fit_transform
| scaler_X_transform
| scaler_y_fit_transform
| scaler_y_transform
| svr_model_fit
| svr_model_predict
| scaler_y_inverse_transform
| mean_squared_error_call
| mean_absolute_error_call
| DataFrame_call
| int_call.

Inductive exn : Type :=
| FileNotFoundError
| IndexError
| ValueError (raised_in : call).

(** The lines the script prints, one constructor per [print] statement,
    carrying the values its f-string interpolates. *)
Inductive line : Type :=
| Text (s : string)
| OriginalSize (len_df : nat)
| ReducedSize (len_data : nat)
| ShapeX (n_rows : nat) (n_cols : option nat)
| ShapeY (n_rows : nat)
| TrainingPoints (n : nat)
| TestPoints (n : nat)
| MetricRMSE (v : R)
| MetricMAE (v : Q)
| MetricMAPE (v : option Q).

Inductive event : Type :=
| Print (l : line)
| Call (c : call) (n_samples : nat)
| Show (figure : string).

(** How a computation ends: with a value, with an exception, or in
    [exit(code)]. *)
Inductive result (A : Type) : Type :=
| Ok (a : A)
| Raise (e : exn)
| SystemExit (code : option Z).
Arguments Raise {A} e.
Arguments SystemExit {A} code.

Definition script (A : Type) : Type := (list event * result A)%type.

Definition ret {A} (a : A) : script A := ([], Ok a).

Definition bind {A B} (m : script A) (k : A -> script B) : script B :=
  match m with
  | (out, Ok a) => let (out', r) := k a in (out ++ out', r)
  | (out, Raise e) => (out, Raise e)
  | (out, SystemExit c) => (out, SystemExit c)
  end.

Declare Scope script_scope.
Delimit Scope script_scope with script.
Notation "x <- m ;; k" := (bind m (fun x => k))
  (at level 61, m at next level, right associativity) : script_scope.
Notation "m ;; k" := (bind m (fun _ => k))
  (at level 61, right associativity) : script_scope.

Definition emit (e : event) : script unit := ([e], Ok tt).
Definition print (l : line) : script unit := emit (Print l).
Definition raise {A} (e : exn) : script A := ([], Raise e).
Definition exit {A} (code : option Z) : script A := ([], SystemExit code).
Definition lift {A} (r : result A) : script A := ([], r).

(** [try: m except FileNotFoundError: h] *)
Definition try_except_FileNotFoundError {A} (m : script A) (h : script A)
  : script A :=
  match m with
  | (out, Raise FileNotFoundError) => let (out', r) := h in (out ++ out', r)
  | _ => m
  end.

Definition trace {A} (m : script A) : list event := fst m.
Definition outcome {A} (m : script A) : result A := snd m.

(** Everything written to standard output, in order. *)
Definition stdout {A} (m : script A) : list line :=
  flat_map (fun e => match e with Print l => [l] | _ => [] end) (trace m).

(** The exit status of the interpreter: [exit()] and [exit(None)] give 0,
    [exit(n)] gives [n], an uncaught exception gives 1. *)
Definition exit_status {A} (m : script A) : Z :=
  match outcome m with
  | Ok _ => 0%Z
  | SystemExit None => 0%Z
  | SystemExit (Some c) => c
  | Raise _ => 1%Z
  end.

(* ===================================================================== *)
(** ** Floats: [int(len(X) * 0.8)] *)
(* ===================================================================== *)

(** [float(n)] for [0 <= n < 2^63]. *)
Definition float_of_int (n : Z) : float := PrimFloat.of_uint63 (Uint63.of_Z n).

(** [int(f)]: truncation towards zero; infinities and NaN raise. *)
Definition int_of_float (f : float) : result Z :=
  match Prim2SF f with
  | S754_zero _ => Ok 0%Z
  | S754_finite s m e =>
      let mag := if (0 <=? e)%Z then (Z.pos m * 2 ^ e)%Z
                 else (Z.pos m / 2 ^ (- e))%Z in
      Ok (if s then (- mag)%Z else mag)
  | _ => Raise (ValueError int_call)
  end.

(** The literal [0.8]: the binary64 nearest to 4/5. *)
Definition point_eight : float := 0x1.999999999999ap-1%float.

(** [train_size = int(len(X) * 0.8)] *)
Definition train_size (len_X : nat) : result nat :=
  match int_of_float (PrimFloat.mul (float_of_int (Z.of_nat len_X)) point_eight) with
  | Ok z => Ok (Z.to_nat z)
  | Raise e => Raise e
  | SystemExit c => SystemExit c
  end.

(* ===================================================================== *)
(** ** pandas: the table, missing values *)
(* ===================================================================== *)

(** The four forecasting variables, [data = df[['irradiance', 'temperature',
    'humidity', 'wind_speed']]]. *)
Inductive column : Type := irradiance | temperature | humidity | wind_speed.

Definition selected_columns : list column :=
  [irradiance; temperature; humidity; wind_speed].

(** A row of the CSV file: the parsed [date], the four measurements
    ([None] is NaN) and the optional [town] label. *)
Record row : Type := {
  date : Z;
  value : column -> option Q;
  town : option string
}.

(** The table read from the file; [has_town] is ['town' in df.columns]. *)
Record DataFrame : Type := {
  has_town : bool;
  rows : list row
}.

(** A frame of the selected columns, [data[c]] being the series of column
    [c]. *)
Definition frame : Type := column -> list (option Q).

Section Fill.
Context {A : Type}.

(** [Series.ffill()]: a missing value takes the last valid value before
    it; leading missing values stay missing. *)
Fixpoint ffill_from (last : option A) (s : list (option A))
  : list (option A) :=
  match s with
  | [] => []
  | Some v :: t => Some v :: ffill_from (Some v) t
  | None :: t => last :: ffill_from last t
  end.

Definition ffill (s : list (option A)) : list (option A) :=
  ffill_from None s.

(** [Series.bfill()]: a missing value takes the next valid value after
    it; trailing missing values stay missing. *)
Fixpoint bfill (s : list (option A)) : list (option A) :=
  match s with
  | [] => []
  | Some v :: t => Some v :: bfill t
  | None :: t => hd None (bfill t) :: bfill t
  end.

(** [Series.isnull().sum()] *)
Definition isnull_sum (s : list (option A)) : nat :=
  List.length (filter (fun x => match x with None => true | Some _ => false end) s).

Definition notnull (x : option A) : Prop := x <> None.
End Fill.

(** [data.isnull().sum().sum()] *)
Definition isnull_sum_sum (data : frame) : nat :=
  fold_right (fun c acc => isnull_sum (data c) + acc) 0 selected_columns.

(** [data.ffill().bfill()] *)
Definition ffill_bfill (data : frame) : frame :=
  fun c => bfill (ffill (data c)).

(** Line 33-35: fill only when some value is missing. *)
Definition impute (data : frame) : script frame :=
  (if 0 <? isnull_sum_sum data then
     print (Text "Warning: Missing values found. Imputing with forward/backward fill.") ;;
     ret (ffill_bfill data)
   else ret data)%script.

(** [df.sort_index()] on the date index, by insertion from the right: a
    row goes before the first row that is not earlier.  Rows with equal
    dates keep their order here; pandas does not promise an order among
    them, and no property below depends on it. *)
Fixpoint insert_row (r : row) (l : list row) : list row :=
  match l with
  | [] => [r]
  | h :: t => if (date r <=? date h)%Z then r :: l else h :: insert_row r t
  end.

Definition sort_index (l : list row) : list row :=
  fold_right insert_row [] l.

(** [df.index] after [set_index('date')]. *)
Definition index (df : list row) : list Z := map date df.

Definition select (df : list row) : frame :=
  fun c => map (fun r => value r c) df.

(** [len(data)] *)
Definition len (data : frame) : nat := List.length (data irradiance).

(* ===================================================================== *)
(** ** Windowing and split (lines 46-64) *)
(* ===================================================================== *)

Definition n_lags : nat := 24.
Definition N_LAGS : nat := 24.
Definition tail_size : nat := Z.to_nat 10000.

Section Windowing.
Context {A : Type}.

(** [data['irradiance'].iloc[i-n_lags:i].values]; [i - n_lags] is never
    negative inside the loop. *)
Definition window (s : list A) (i : nat) : list A := slice s (i - n_lags) i.

(** The loop body for the indices [idx], appending to [X] and [y]. *)
Fixpoint windowing_loop (s : list A) (idx : list nat)
    (X : list (list A)) (y : list A) : result (list (list A) * list A) :=
  match idx with
  | [] => Ok (X, y)
  | i :: rest =>
      match iloc s i with
      | None => Raise IndexError
      | Some v => windowing_loop s rest (X ++ [window s i]) (y ++ [v])
      end
  end.

(** [for i in range(n_lags, len(data)): ...] starting from empty lists. *)
Definition windowing (s : list A) : result (list (list A) * list A) :=
  windowing_loop s (range n_lags (List.length s)) [] [].

Record partition : Type := {
  X_train : list (list A);
  X_test : list (list A);
  y_train : list A;
  y_test : list A
}.

(** Lines 62-64: the boundary and the four slices. *)
Definition split (X : list (list A)) (y : list A) : result (nat * partition) :=
  match train_size (List.length X) with
  | Ok ts => Ok (ts, {| X_train := slice X 0 ts; X_test := slice_from X ts;
                        y_train := slice y 0 ts; y_test := slice_from y ts |})
  | Raise e => Raise e
  | SystemExit c => SystemExit c
  end.
End Windowing.
Arguments partition A : clear implicits.

(* ===================================================================== *)
(** ** numpy on arrays of floats *)
(* ===================================================================== *)

Section Zip.
Context {A B C : Type}.

(** Element-wise operation on two arrays of the same shape. *)
Fixpoint zip_with (f : A -> B -> C) (l1 : list A) (l2 : list B) : list C :=
  match l1, l2 with
  | a :: t1, b :: t2 => f a b :: zip_with f t1 t2
  | _, _ => []
  end.
End Zip.

(** The number of elements, as a float. *)
Definition Qlen {A : Type} (l : list A) : Q :=
  inject_Z (Z.of_nat (List.length l)).

(** [np.sum] *)
Definition np_sum (l : list Q) : Q := fold_right Qplus 0%Q l.

(** [np.mean]; the mean of no element is NaN. *)
Definition np_mean (l : list Q) : option Q :=
  match l with
  | [] => None
  | _ => Some (np_sum l / Qlen l)%Q
  end.

(** [x / y] on floats in numpy and pandas: no exception, a zero divisor
    gives a value that is not finite (inf or NaN); [None] stands for it. *)
Definition np_divide (x y : Q) : option Q :=
  if Qeq_bool y 0 then None else Some (x / y)%Q.

(** An array with a non-finite or missing element has no finite image. *)
Fixpoint all_finite {A : Type} (l : list (option A)) : option (list A) :=
  match l with
  | [] => Some []
  | None :: _ => None
  | Some v :: t => option_map (cons v) (all_finite t)
  end.

Definition isnan {A : Type} (x : option A) : bool :=
  match x with None => true | Some _ => false end.

(** [a.reshape(-1, 1)] and [a.flatten()] *)
Definition reshape_column {A : Type} (a : list A) : list (list A) :=
  map (fun v => [v]) a.
Definition flatten {A : Type} (m : list (list A)) : list A := concat m.

(* ===================================================================== *)
(** ** scikit-learn: MinMaxScaler, metrics, the estimator *)
(* ===================================================================== *)

(** The fitted attributes of [MinMaxScaler()] (feature_range (0, 1), no
    clipping): the per-column minimum and maximum seen by [fit]. *)
Record MinMaxScaler : Type := {
  data_min_ : list Q;
  data_max_ : list Q
}.

(** [np.min(X, axis=0)] and [np.max(X, axis=0)] of a matrix with at least
    one row. *)
Definition column_min (X : list (list Q)) : list Q :=
  match X with
  | [] => []
  | r :: rest => fold_left (zip_with Qmin) rest r
  end.

Definition column_max (X : list (list Q)) : list Q :=
  match X with
  | [] => []
  | r :: rest => fold_left (zip_with Qmax) rest r
  end.

(** [np.finfo(np.float64).eps], 2^-52. *)
Definition float64_eps : Q := 1 # 4503599627370496.

(** [_handle_zeros_in_scale]: [scale[scale < 10 * eps] = 1.0].  The range
    of a constant or nearly constant column is replaced by 1 before
    dividing. *)
Definition handle_zeros_in_scale (r : Q) : Q :=
  if Qle_bool (10 * float64_eps) r then r else 1%Q.

Definition data_range_ (s : MinMaxScaler) : list Q :=
  zip_with Qminus (data_max_ s) (data_min_ s).

(** [scale_ = (1 - 0) / data_range_] *)
Definition scale_ (s : MinMaxScaler) : list Q :=
  map (fun r => (1 - 0) / handle_zeros_in_scale r)%Q (data_range_ s).

(** [min_ = 0 - data_min_ * scale_] *)
Definition min_ (s : MinMaxScaler) : list Q :=
  zip_with (fun mn sc => 0 - mn * sc)%Q (data_min_ s) (scale_ s).

(** [X *= scale_; X += min_] on one row, on the exact values. *)
Definition transform_row (s : MinMaxScaler) (r : list Q) : list Q :=
  zip_with (fun x p => x * fst p + snd p)%Q r (combine (scale_ s) (min_ s)).

(** [X -= min_; X /= scale_] on one row. *)
Definition inverse_transform_row (s : MinMaxScaler) (r : list Q) : list Q :=
  zip_with (fun x p => (x - snd p) / fst p)%Q r (combine (scale_ s) (min_ s)).

Definition n_features_ok (s : MinMaxScaler) (X : list (list Q)) : bool :=
  forallb (fun r => List.length r =? List.length (data_min_ s)) X.

(** [fit]: input validation asks for at least one sample. *)
Definition fit (c : call) (X : list (list Q)) : result MinMaxScaler :=
  match X with
  | [] => Raise (ValueError c)
  | _ => Ok {| data_min_ := column_min X; data_max_ := column_max X |}
  end.

(** [transform] and [inverse_transform] use the fitted attributes and
    leave them unchanged. *)
Definition transform (c : call) (s : MinMaxScaler) (X : list (list Q))
  : result (list (list Q)) :=
  match X with
  | [] => Raise (ValueError c)
  | _ => if n_features_ok s X then Ok (map (transform_row s) X)
         else Raise (ValueError c)
  end.

Definition inverse_transform (c : call) (s : MinMaxScaler) (X : list (list Q))
  : result (list (list Q)) :=
  match X with
  | [] => Raise (ValueError c)
  | _ => if n_features_ok s X then Ok (map (inverse_transform_row s) X)
         else Raise (ValueError c)
  end.

(** [fit_transform(X) = fit(X).transform(X)] *)
Definition fit_transform (c : call) (X : list (list Q))
  : result (MinMaxScaler * list (list Q)) :=
  match fit c X with
  | Ok s => match transform c s X with
            | Ok Xs => Ok (s, Xs)
            | Raise e => Raise e
            | SystemExit k => SystemExit k
            end
  | Raise e => Raise e
  | SystemExit k => SystemExit k
  end.

(** [sklearn.metrics]: both arguments must have the same, non-zero number
    of samples. *)
Definition check_consistent (c : call) (y_true y_pred : list Q) : result unit :=
  if (List.length y_true =? List.length y_pred) && negb (List.length y_true =? 0)
  then Ok tt else Raise (ValueError c).

Definition residuals (y_true y_pred : list Q) : list Q :=
  zip_with Qminus y_true y_pred.

(** The mean of the exact values; the rounded computation of the two
    metrics is [mean_squared_error_binary64] and
    [mean_absolute_error_binary64] below. *)
Definition mean_of (l : list Q) : Q := (np_sum l / Qlen l)%Q.

Definition square (r : Q) : Q := (r * r)%Q.

Definition mean_squared_error (y_true y_pred : list Q) : result Q :=
  match check_consistent mean_squared_error_call y_true y_pred with
  | Ok _ => Ok (mean_of (map square (residuals y_true y_pred)))
  | Raise e => Raise e
  | SystemExit k => SystemExit k
  end.

Definition mean_absolute_error (y_true y_pred : list Q) : result Q :=
  match check_consistent mean_absolute_error_call y_true y_pred with
  | Ok _ => Ok (mean_of (map Qabs (residuals y_true y_pred)))
  | Raise e => Raise e
  | SystemExit k => SystemExit k
  end.

(** [np.sqrt] of a rational, as a real number. *)
Definition np_sqrt (q : Q) : R := sqrt (Q2R q).

(** The regression library behind [SVR(kernel='rbf', C=10, epsilon=0.1,
    gamma='scale')]: [fit] gives an opaque model, [predict] one estimate
    per sample. *)
Record Estimator : Type := {
  model : Type;
  svr_fit : list (list Q) -> list Q -> model;
  svr_predict : model -> list (list Q) -> list Q
}.

Definition predicts_per_sample (SVR : Estimator) : Prop :=
  forall (m : model SVR) X, List.length (svr_predict SVR m X) = List.length X.

(* ===================================================================== *)
(** ** The script, top to bottom *)
(* ===================================================================== *)

#[local] Open Scope script_scope.

(** Lines 14-20. [file] is the content of ['cleaned_dataset.csv'], [None]
    when the file does not exist. *)
Definition load (file : option DataFrame) : script DataFrame :=
  try_except_FileNotFoundError
    (t <- match file with
          | None => raise FileNotFoundError
          | Some t => ret t
          end ;;
     print (Text "Dataset loaded successfully.") ;;
     ret t)
    (print (Text "Error: 'cleaned_dataset.csv' not found. Please ensure the file is in the same directory.") ;;
     exit None).

(** The values bound by lines 25-64. *)
Record prepared : Type := {
  df : list row;
  data : frame;
  X : list (list (option Q));
  y : list (option Q);
  boundary : nat;
  parts : partition (option Q)
}.

(** Lines 46-56 on the irradiance series. *)
Definition lagged_features (data : frame) : result (list (list (option Q)) * list (option Q)) :=
  windowing (data irradiance).

(** Lines 25-67. *)
Definition preprocess (t : DataFrame) : script prepared :=
  let df := sort_index (rows t) in
  let data := select df in
  data <- impute data ;;
  print (OriginalSize (List.length df)) ;;
  let data : frame := fun c => tail tail_size (data c) in
  print (ReducedSize (len data)) ;;
  Xy <- lift (lagged_features data) ;;
  print (ShapeX (List.length (fst Xy)) (option_map (@List.length _) (hd_error (fst Xy)))) ;;
  print (ShapeY (List.length (snd Xy))) ;;
  sp <- lift (split (fst Xy) (snd Xy)) ;;
  print (TrainingPoints (List.length (X_train (snd sp)))) ;;
  print (TestPoints (List.length (X_test (snd sp)))) ;;
  ret {| df := df; data := data; X := fst Xy; y := snd Xy;
         boundary := fst sp; parts := snd sp |}.

(** The values bound by lines 70-80. *)
Record scaled : Type := {
  scaler_X : MinMaxScaler;
  scaler_y : MinMaxScaler;
  X_train_scaled : list (list Q);
  X_test_scaled : list (list Q);
  y_train_scaled : list Q;
  y_test_scaled : list Q
}.

(** Lines 70-80: each scaler is fitted by its [fit_transform] on the
    training arrays; the test arrays go through [transform]. *)
Definition scale (p : partition Q) : script scaled :=
  emit (Call scaler_X_fit_transform (List.length (X_train p))) ;;
  fx <- lift (fit_transform scaler_X_fit_transform (X_train p)) ;;
  emit (Call scaler_X_transform (List.length (X_test p))) ;;
  X_test_scaled <- lift (transform scaler_X_transform (fst fx) (X_test p)) ;;
  let y_train_reshaped := reshape_column (y_train p) in
  let y_test_reshaped := reshape_column (y_test p) in
  emit (Call scaler_y_fit_transform (List.length y_train_reshaped)) ;;
  fy <- lift (fit_transform scaler_y_fit_transform y_train_reshaped) ;;
  emit (Call scaler_y_transform (List.length y_test_reshaped)) ;;
  y_test_scaled <- lift (transform scaler_y_transform (fst fy) y_test_reshaped) ;;
  ret {| scaler_X := fst fx; scaler_y := fst fy;
         X_train_scaled := snd fx; X_test_scaled := X_test_scaled;
         y_train_scaled := flatten (snd fy);
         y_test_scaled := flatten y_test_scaled |}.

(** Lines 84-92. *)
Definition fit_predict (SVR : Estimator) (p : partition Q) (s : scaled)
  : script (list Q) :=
  print (Text "") ;;
  print (Text "Fitting SVR model...") ;;
  emit (Call svr_model_fit (List.length (X_train_scaled s))) ;;
  let svr_model := svr_fit SVR (X_train_scaled s) (y_train_scaled s) in
  print (Text "SVR model fitted successfully.") ;;
  emit (Call svr_model_predict (List.length (X_test_scaled s))) ;;
  let predictions_scaled := svr_predict SVR svr_model (X_test_scaled s) in
  emit (Call scaler_y_inverse_transform (List.length predictions_scaled)) ;;
  inv <- lift (inverse_transform scaler_y_inverse_transform (scaler_y s)
                 (reshape_column predictions_scaled)) ;;
  ret (flatten inv).

(** Lines 94-95. *)
Definition test_index_start (len_df len_data train_size : nat) : nat :=
  n_lags + (len_df - len_data) + train_size.

Definition test_index_first (df_index : list Z)
    (len_data train_size len_y_test : nat) : list Z :=
  let start := test_index_start (List.length df_index) len_data train_size in
  slice df_index start (start + len_y_test).

(** Line 203. *)
Definition test_index_second (df_index : list Z)
    (len_X_train len_y_test : nat) : list Z :=
  slice df_index (N_LAGS + len_X_train) (N_LAGS + len_X_train + len_y_test).

(** The safety term of line 102. *)
Definition eps_safety : Q := (1 # 100000000)%Q.

(** Line 102:
    [np.mean(np.abs((y_test - predictions) / (y_test + 1e-8))) * 100]. *)
Definition mape_guarded (y_test predictions : list Q) : option Q :=
  match all_finite (zip_with (fun a p => option_map Qabs (np_divide (a - p) (a + eps_safety))%Q)
                             y_test predictions) with
  | Some l => option_map (fun m => m * 100)%Q (np_mean l)
  | None => None
  end.

(** A float that need not be finite: a number, an infinity or NaN. *)
Inductive float_value : Type :=
| Finite (q : Q)
| Inf (negative : bool)
| NotANumber.

(** [x / y] on two pandas Series, element by element: no exception; a
    zero divisor gives NaN for 0 / 0 and an infinity with the sign of [x]
    otherwise. *)
Definition truediv (x y : Q) : float_value :=
  if Qeq_bool y 0 then
    if Qeq_bool x 0 then NotANumber else Inf (negb (Qle_bool 0 x))
  else Finite (x / y)%Q.

(** [np.abs] *)
Definition np_abs (v : float_value) : float_value :=
  match v with
  | Finite q => Finite (Qabs q)
  | Inf _ => Inf false
  | NotANumber => NotANumber
  end.

Definition float_add (a b : float_value) : float_value :=
  match a, b with
  | NotANumber, _ | _, NotANumber => NotANumber
  | Inf s, Inf s' => if Bool.eqb s s' then Inf s else NotANumber
  | Inf s, Finite _ | Finite _, Inf s => Inf s
  | Finite x, Finite y => Finite (x + y)%Q
  end.

Definition notna (v : float_value) : bool :=
  match v with NotANumber => false | _ => true end.

(** [Series.mean()], which is what [np.mean] calls on a pandas Series:
    [skipna=True], so NaN values are left out of the sum and of the count;
    infinities are kept; the mean of no value is NaN. *)
Definition Series_mean (s : list float_value) : float_value :=
  match filter notna s with
  | [] => NotANumber
  | kept => match fold_right float_add (Finite 0) kept with
            | Finite t => Finite (t / Qlen kept)%Q
            | v => v
            end
  end.

(** [v * 100] *)
Definition times_100 (v : float_value) : float_value :=
  match v with Finite q => Finite (q * 100)%Q | _ => v end.

(** Line 256:
    [np.mean(np.abs((x['actual'] - x['predicted']) / x['actual'])) * 100]
    on the columns of a group, which are pandas Series. *)
Definition mape_by_town (actual predicted : list Q) : float_value :=
  times_100
    (Series_mean
       (map np_abs (zip_with (fun a p => truediv (a - p) a)%Q actual predicted))).

(** The values bound by lines 99-102. *)
Record metrics : Type := {
  rmse : R;
  mae : Q;
  mape : option Q
}.

(** Lines 99-107. *)
Definition evaluate (y_test predictions : list Q) : script metrics :=
  emit (Call mean_squared_error_call (List.length y_test)) ;;
  mse <- lift (mean_squared_error y_test predictions) ;;
  let rmse := np_sqrt mse in
  emit (Call mean_absolute_error_call (List.length y_test)) ;;
  mae <- lift (mean_absolute_error y_test predictions) ;;
  let mape := mape_guarded y_test predictions in
  print (Text "") ;;
  print (Text "Model Performance Metrics:") ;;
  print (MetricRMSE rmse) ;;
  print (MetricMAE mae) ;;
  print (MetricMAPE mape) ;;
  ret {| rmse := rmse; mae := mae; mape := mape |}.

(** The arrays of a partition without NaN, as floats. *)
Definition finite_partition (p : partition (option Q)) : option (partition Q) :=
  match all_finite (map all_finite (X_train p)), all_finite (map all_finite (X_test p)),
        all_finite (y_train p), all_finite (y_test p) with
  | Some xtr, Some xte, Some ytr, Some yte =>
      Some {| X_train := xtr; X_test := xte; y_train := ytr; y_test := yte |}
  | _, _, _, _ => None
  end.

Definition has_nan (X : list (list (option Q))) : bool :=
  existsb (existsb isnan) X.

Definition require_samples {A : Type} (c : call) (a : list A) : script unit :=
  match a with
  | [] => raise (ValueError c)
  | _ => ret tt
  end.

(** Lines 70-100 when NaN is left in the arrays (a column with no valid
    value): the scalers let NaN through, the estimator and the metrics
    refuse it. *)
Definition run_with_nan {A : Type} (p : partition (option Q)) : script A :=
  emit (Call scaler_X_fit_transform (List.length (X_train p))) ;;
  require_samples scaler_X_fit_transform (X_train p) ;;
  emit (Call scaler_X_transform (List.length (X_test p))) ;;
  require_samples scaler_X_transform (X_test p) ;;
  emit (Call scaler_y_fit_transform (List.length (y_train p))) ;;
  require_samples scaler_y_fit_transform (y_train p) ;;
  emit (Call scaler_y_transform (List.length (y_test p))) ;;
  require_samples scaler_y_transform (y_test p) ;;
  print (Text "") ;;
  print (Text "Fitting SVR model...") ;;
  emit (Call svr_model_fit (List.length (X_train p))) ;;
  (if has_nan (X_train p) || existsb isnan (y_train p)
   then raise (ValueError svr_model_fit) else ret tt) ;;
  print (Text "SVR model fitted successfully.") ;;
  emit (Call svr_model_predict (List.length (X_test p))) ;;
  (if has_nan (X_test p) then raise (ValueError svr_model_predict) else ret tt) ;;
  emit (Call scaler_y_inverse_transform (List.length (X_test p))) ;;
  emit (Call mean_squared_error_call (List.length (y_test p))) ;;
  raise (ValueError mean_squared_error_call).

(** *** Town-wise performance (lines 235-270) *)

Record result_row : Type := {
  result_date : Z;
  actual : Q;
  predicted : Q
}.

Record town_metrics : Type := {
  RMSE : R;
  MAE : Q;
  MAPE : float_value
}.

(** [pd.DataFrame({'actual': .., 'predicted': .., 'date': ..})
    .set_index('date')]: the three arrays must have one length. *)
Fixpoint results_frame (y_test predictions : list Q) (test_index : list Z)
  : result (list result_row) :=
  match y_test, predictions, test_index with
  | [], [], [] => Ok []
  | a :: y', p :: p', d :: t' =>
      match results_frame y' p' t' with
      | Ok rs => Ok ({| result_date := d; actual := a; predicted := p |} :: rs)
      | Raise e => Raise e
      | SystemExit c => SystemExit c
      end
  | _, _, _ => Raise (ValueError DataFrame_call)
  end.

(** [results.join(df[['town']], how='left')]: each result row, in order,
    with the town of every row of [df] carrying its date; NaN if none. *)
Definition join_town (results : list result_row) (df : list row)
  : list (result_row * option string) :=
  flat_map (fun r =>
              match filter (fun d => (date d =? result_date r)%Z) df with
              | [] => [(r, None)]
              | matches => map (fun d => (r, town d)) matches
              end) results.

(** The group keys of [groupby('town')]: NaN dropped, sorted, unique. *)
Fixpoint insert_key (k : string) (ks : list string) : list string :=
  match ks with
  | [] => [k]
  | h :: t => match String.compare k h with
              | Lt => k :: ks
              | Eq => ks
              | Gt => h :: insert_key k t
              end
  end.

Definition group_keys (j : list (result_row * option string)) : list string :=
  fold_right (fun x ks => match snd x with
                          | Some k => insert_key k ks
                          | None => ks
                          end) [] j.

Definition group (j : list (result_row * option string)) (k : string)
  : list result_row :=
  map fst (filter (fun x => match snd x with
                            | Some k' => String.eqb k k'
                            | None => false
                            end) j).

(** The lambda of lines 253-257 on one group [x]. *)
Definition group_metrics (x : list result_row) : result town_metrics :=
  match mean_squared_error (map actual x) (map predicted x),
        mean_absolute_error (map actual x) (map predicted x) with
  | Ok mse, Ok mae =>
      Ok {| RMSE := np_sqrt mse; MAE := mae;
            MAPE := mape_by_town (map actual x) (map predicted x) |}
  | Raise e, _ => Raise e
  | SystemExit c, _ => SystemExit c
  | _, Raise e => Raise e
  | _, SystemExit c => SystemExit c
  end.

Fixpoint metrics_by_town (j : list (result_row * option string))
    (keys : list string) : result (list (string * town_metrics)) :=
  match keys with
  | [] => Ok []
  | k :: ks =>
      match group_metrics (group j k), metrics_by_town j ks with
      | Ok m, Ok ms => Ok ((k, m) :: ms)
      | Raise e, _ => Raise e
      | SystemExit c, _ => SystemExit c
      | _, Raise e => Raise e
      | _, SystemExit c => SystemExit c
      end
  end.

Definition analyze_town_performance (y_test predictions : list Q)
    (test_index : list Z) (has_town : bool) (df : list row)
  : script (option (list (string * town_metrics))) :=
  if negb has_town then
    print (Text "No town information available for performance analysis") ;;
    ret None
  else
    results <- lift (results_frame y_test predictions test_index) ;;
    let results := join_town results df in
    m <- lift (metrics_by_town results (group_keys results)) ;;
    emit (Show "Model Performance Metrics by Town") ;;
    ret (Some m).

(** *** The whole run *)

Record globals : Type := {
  prep : prepared;
  floats : partition Q;
  scaling : scaled;
  predictions : list Q;
  test_index_95 : list Z;
  errors : metrics;
  test_index : list Z;
  svr_town_metrics : option (list (string * town_metrics))
}.

(** Lines 70-274, from the prepared arrays on. *)
Definition run_model (SVR : Estimator) (t : DataFrame) (pre : prepared)
  : script globals :=
  match finite_partition (parts pre) with
  | None => run_with_nan (parts pre)
  | Some p =>
      s <- scale p ;;
      predictions <- fit_predict SVR p s ;;
      let test_index_95 :=
        test_index_first (index (df pre)) (len (data pre)) (boundary pre)
                         (List.length (y_test p)) in
      m <- evaluate (y_test p) predictions ;;
      emit (Show "Solar Irradiance Forecasting using SVR") ;;
      emit (Show "Actual vs Predicted Values") ;;
      emit (Show "Residual Distribution (Actual - Predicted)") ;;
      emit (Show "Error Metrics Comparison") ;;
      let test_index :=
        test_index_second (index (df pre)) (List.length (X_train p))
                          (List.length (y_test p)) in
      emit (Show "Solar Irradiance: Actual vs Predicted") ;;
      emit (Show "Residuals Over Time (SVR)") ;;
      print (Text "") ;;
      print (Text "SVR Town Performance:") ;;
      tm <- analyze_town_performance (y_test p) predictions test_index
                                     (has_town t) (df pre) ;;
      ret {| prep := pre; floats := p; scaling := s; predictions := predictions;
             test_index_95 := test_index_95; errors := m;
             test_index := test_index; svr_town_metrics := tm |}
  end.

Definition main (SVR : Estimator) (file : option DataFrame) : script globals :=
  t <- load file ;;
  pre <- preprocess t ;;
  run_model SVR t pre.

#[local] Close Scope script_scope.

(* ===================================================================== *)
(** ** Closed forms used in the statements *)
(* ===================================================================== *)

(** floor(0.8 * M) in exact arithmetic. *)
Definition floor_80_percent (M : nat) : nat :=
  Z.to_nat (Qfloor ((8 # 10) * inject_Z (Z.of_nat M))%Q).

(** [int(z * 0.8)] is the exact floor of 0.8 z at [z], and at the [n]
    integers from [z] on. *)
Definition boundary_exact (z : Z) : bool :=
  match int_of_float (PrimFloat.mul (float_of_int z) point_eight) with
  | Ok b => (b =? Qfloor ((8 # 10) * inject_Z z)%Q)%Z
  | _ => false
  end.

Fixpoint boundary_exact_from (n : nat) (z : Z) : bool :=
  match n with
  | 0 => true
  | S n' => boundary_exact z && boundary_exact_from n' (Z.succ z)
  end.

(** What [impute] returns. *)
Definition imputed (data : frame) : frame :=
  if 0 <? isnull_sum_sum data then ffill_bfill data else data.

(** The values [preprocess] binds, in closed form. *)
Definition prepared_of (t : DataFrame) : prepared :=
  let df := sort_index (rows t) in
  let data : frame := fun c => tail tail_size (imputed (select df) c) in
  let s := data irradiance in
  let X := map (window s) (range n_lags (List.length s)) in
  let y := skipn n_lags s in
  let b := floor_80_percent (List.length X) in
  {| df := df; data := data; X := X; y := y; boundary := b;
     parts := {| X_train := firstn b X; X_test := skipn b X;
                 y_train := firstn b y; y_test := skipn b y |} |}.

(** Arrays the scalers accept: at least one sample on each side and one
    width [w] for every feature vector. *)
Definition rectangular (w : nat) (X : list (list Q)) : Prop :=
  Forall (fun r => List.length r = w) X.

Record well_shaped (w : nat) (p : partition Q) : Prop := {
  train_rows : X_train p <> [];
  test_rows : X_test p <> [];
  train_labels : y_train p <> [];
  test_labels : y_test p <> [];
  train_width : rectangular w (X_train p);
  test_width : rectangular w (X_test p)
}.

(** What [fit] stores for a non-empty array. *)
Definition fitted_on (X : list (list Q)) : MinMaxScaler :=
  {| data_min_ := column_min X; data_max_ := column_max X |}.

(** The values [scale] binds, in closed form. *)
Definition scaled_of (p : partition Q) : scaled :=
  let sX := fitted_on (X_train p) in
  let sy := fitted_on (reshape_column (y_train p)) in
  {| scaler_X := sX; scaler_y := sy;
     X_train_scaled := map (transform_row sX) (X_train p);
     X_test_scaled := map (transform_row sX) (X_test p);
     y_train_scaled := flatten (map (transform_row sy) (reshape_column (y_train p)));
     y_test_scaled := flatten (map (transform_row sy) (reshape_column (y_test p))) |}.

(** The offset the tail truncation introduces, [len(df) - len(data)]. *)
Definition tail_offset (pre : prepared) : nat :=
  List.length (df pre) - len (data pre).


(** Every row has an irradiance reading. *)
Definition valid_irradiance (t : DataFrame) : Prop :=
  Forall (fun r => value r irradiance <> None) (rows t).

(** No library call is handed an array without samples, and the run does
    not end in a [ValueError] raised inside a library call. *)
Definition no_call_on_empty (r : script globals) : Prop :=
  (forall c, ~ In (Call c 0) (trace r))
  /\ (forall c, outcome r <> Raise (ValueError c)).

(* ===================================================================== *)
(** ** Sample inputs *)
(* ===================================================================== *)

(** An estimator that always predicts the scaled value 0. *)
Definition null_svr : Estimator :=
  {| model := unit;
     svr_fit := fun _ _ => tt;
     svr_predict := fun _ X => map (fun _ => 0%Q) X |}.

(** [n] hourly rows with irradiance [f i] at hour [i], all in one town. *)
Definition hourly (n : nat) (f : nat -> Q) (place : string) : list row :=
  map (fun i => {| date := Z.of_nat i;
                   value := fun _ => Some (f i);
                   town := Some place |}) (seq 0 n).

Definition ramp (i : nat) : Q := inject_Z (Z.of_nat i).

(** 27 rows, irradiance 0, 1, 2, ...: 3 samples, 2 for training. *)
Definition table_27 : DataFrame :=
  {| has_town := false; rows := hourly 27 ramp "Buea" |}.

(** 25 rows: one sample, none for training. *)
Definition table_25 : DataFrame :=
  {| has_town := false; rows := hourly 25 ramp "Buea" |}.

(** 30 rows of a town at night: irradiance 0 throughout. *)
Definition table_night : DataFrame :=
  {| has_town := true; rows := hourly 30 (fun _ => 0%Q) "Buea" |}.

(** 10001 rows that all carry one date. *)
Definition table_one_date : DataFrame :=
  {| has_town := false;
     rows := map (fun _ => {| date := 0%Z;
                              value := fun _ => Some 0%Q;
                              town := None |}) (seq 0 (S tail_size)) |}.

(** An irradiance column with an interior gap of five rows; the other
    columns are complete. *)
Definition frame_with_gap : frame :=
  fun c => match c with
           | irradiance => [Some 3%Q; Some 5%Q; None; None; None; None; None; Some 8%Q]
           | _ => repeat (Some 1%Q) 8
           end.

(** Two partitions with the same training arrays and different test
    arrays, two features wide. *)
Definition partition_a : partition Q :=
  {| X_train := [[1; 2]; [3; 1]; [2; 5]]%Q; X_test := [[2; 2]]%Q;
     y_train := [3; 1; 2]%Q; y_test := [2]%Q |}.

Definition partition_b : partition Q :=
  {| X_train := [[1; 2]; [3; 1]; [2; 5]]%Q; X_test := [[9; 0]; [4; 4]]%Q;
     y_train := [3; 1; 2]%Q; y_test := [7; 5]%Q |}.

(** A partition whose training labels are all equal. *)
Definition partition_constant : partition Q :=
  {| X_train := [[1; 2]; [3; 1]; [2; 5]]%Q; X_test := [[2; 2]]%Q;
     y_train := [4; 4; 4]%Q; y_test := [6]%Q |}.

(* ===================================================================== *)
(** ** The training index of the first figure (lines 113-114) *)
(* ===================================================================== *)

Definition actual_train_index_start (len_df len_data : nat) : nat :=
  n_lags + (len_df - len_data).

Definition actual_train_index (df_index : list Z)
    (len_data train_size : nat) : list Z :=
  let start := actual_train_index_start (List.length df_index) len_data in
  slice df_index start (start + train_size).

(** Rows in chronological order. *)
Definition not_later (a b : row) : Prop := (date a <= date b)%Z.

(** 26 rows with dates and towns but no irradiance reading at all. *)
Definition table_no_irradiance : DataFrame :=
  {| has_town := false;
     rows := map (fun i => {| date := Z.of_nat i;
                              value := fun c => match c with
                                                | irradiance => None
                                                | _ => Some 1%Q
                                                end;
                              town := Some "Buea" |}) (seq 0 26) |}.

(** A result that is not the ValueError of [scaler_X.fit_transform]. *)
Definition not_from_first_scaler {A : Type} (r : result A) : Prop :=
  r <> Raise (ValueError scaler_X_fit_transform).

(* ===================================================================== *)
(** ** The error metrics in binary64 (lines 99-100) *)
(* ===================================================================== *)

(** The two metrics as the script computes them, every operation rounded
    to binary64.  [np.sum] adds from left to right, which is numpy's order
    for fewer than eight elements (longer arrays are added in blocks);
    [np.mean] divides the sum by the number of elements. *)
Definition np_sum_binary64 (l : list float) : float :=
  fold_left PrimFloat.add l 0%float.

Definition np_mean_binary64 (l : list float) : float :=
  (np_sum_binary64 l / float_of_int (Z.of_nat (List.length l)))%float.

(** [np.average((y_true - y_pred) ** 2)] *)
Definition mean_squared_error_binary64 (y_true y_pred : list float) : float :=
  np_mean_binary64
    (map (fun r => r * r)%float (zip_with PrimFloat.sub y_true y_pred)).

(** [np.average(np.abs(y_pred - y_true))] *)
Definition mean_absolute_error_binary64 (y_true y_pred : list float) : float :=
  np_mean_binary64
    (map PrimFloat.abs (zip_with PrimFloat.sub y_pred y_true)).

(** Line 99: [rmse = np.sqrt(mean_squared_error(y_test, predictions))] *)
Definition rmse_binary64 (y_test predictions : list float) : float :=
  PrimFloat.sqrt (mean_squared_error_binary64 y_test predictions).

(** Line 100: [mae = mean_absolute_error(y_test, predictions)] *)
Definition mae_binary64 (y_test predictions : list float) : float :=
  mean_absolute_error_binary64 y_test predictions.

(** The literal [0.1]: the binary64 nearest to 1/10. *)
Definition point_one : float := 0x1.999999999999ap-4%float.

(** Three test labels of 0.1 and their predictions 0.0. *)
Definition three_tenths : list float := [point_one; point_one; point_one].
Definition three_zeros : list float := [0; 0; 0]%float.

(** A binary64 value whose sign bit is not set: NaN, +0, a positive number
    or +inf. *)
Definition sign_clear (x : spec_float) : Prop :=
  match x with
  | S754_zero true | S754_infinity true | S754_finite true _ _ => False
  | _ => True
  end.

(* ===================================================================== *)
(** * Properties *)
(* ===================================================================== *)

(** ** Sequences *)

Section SeqFacts.
Context {A : Type}.
Implicit Types l s : list A.

Lemma slice_length l a b :
  List.length (slice l a b) = Nat.min (b - a) (List.length l - a).
Proof. unfold slice. now rewrite length_firstn, length_skipn. Qed.

Lemma slice_app_from l a : slice l 0 a ++ slice_from l a = l.
Proof.
  unfold slice, slice_from. rewrite Nat.sub_0_r. cbn [skipn].
  apply firstn_skipn.
Qed.

Lemma tail_length n l : List.length (tail n l) = Nat.min n (List.length l).
Proof. unfold tail. rewrite length_skipn. lia. Qed.

Lemma skipn_step l a v :
  nth_error l a = Some v -> skipn a l = v :: skipn (S a) l.
Proof.
  revert a. induction l as [|h t IH]; intros [|a] H; cbn in *;
    try discriminate.
  - now inversion H.
  - now apply IH.
Qed.

Lemma nth_error_slice l a b k :
  k < b - a -> nth_error (slice l a b) k = nth_error l (a + k).
Proof.
  intros Hk. unfold slice.
  rewrite nth_error_firstn.
  destruct (Nat.ltb_spec k (b - a)); [|lia].
  apply nth_error_skipn.
Qed.
End SeqFacts.

(** ** Windowing *)

Section WindowingFacts.
Context {A : Type}.
Implicit Types s : list A.

Lemma windowing_loop_run s k : forall a X0 y0,
  k <= List.length s - a ->
  windowing_loop s (seq a k) X0 y0
  = Ok (X0 ++ map (window s) (seq a k), y0 ++ firstn k (skipn a s)).
Proof.
  induction k as [|k IH]; intros a X0 y0 Hle; cbn [seq windowing_loop].
  - cbn. now rewrite !app_nil_r.
  - unfold iloc. destruct (nth_error s a) as [v|] eqn:Hv.
    + rewrite IH by lia. rewrite (skipn_step _ _ Hv).
      cbn [map firstn]. now rewrite <- !app_assoc.
    + apply nth_error_None in Hv. lia.
Qed.

(** The loop never raises; its result in closed form. *)
Lemma windowing_closed s :
  windowing s
  = Ok (map (window s) (range n_lags (List.length s)), skipn n_lags s).
Proof.
  unfold windowing, range. rewrite windowing_loop_run by lia.
  cbn [app]. f_equal. f_equal.
  apply firstn_all2. rewrite length_skipn. lia.
Qed.
End WindowingFacts.

(** C3. For a series of length N and L = 24 lags the windowing loop
    returns without raising, with max(N - L, 0) feature vectors and as many
    labels.  For every position i with L <= i < N, sample i - L has a
    feature vector of length L holding the values at positions i-L .. i-1
    in that order, and as label the value at position i.  For N <= L the
    loop returns the two empty lists. *)
Theorem windowing_samples (A : Type) (s : list A) :
  exists X y,
    windowing s = Ok (X, y)
    /\ Z.of_nat (List.length X) = Z.max (Z.of_nat (List.length s) - Z.of_nat n_lags) 0
    /\ List.length y = List.length X
    /\ (forall i, n_lags <= i < List.length s ->
        exists feature,
          nth_error X (i - n_lags) = Some feature
          /\ List.length feature = n_lags
          /\ (forall k, k < n_lags ->
              nth_error feature k = nth_error s (i - n_lags + k))
          /\ nth_error y (i - n_lags) = nth_error s i)
    /\ (List.length s <= n_lags -> X = [] /\ y = []).
Proof.
  exists (map (window s) (range n_lags (List.length s))), (skipn n_lags s).
  split; [apply windowing_closed|].
  assert (HX : List.length (map (window s) (range n_lags (List.length s)))
               = List.length s - n_lags)
    by (unfold range; now rewrite length_map, length_seq).
  split; [rewrite HX; unfold n_lags; lia|].
  split; [rewrite HX; apply length_skipn|].
  split.
  - intros i [Hlo Hhi]. exists (window s i). repeat split.
    + unfold range. rewrite nth_error_map, nth_error_seq.
      destruct (Nat.ltb_spec (i - n_lags) (List.length s - n_lags)); [|lia].
      cbn [option_map]. now replace (n_lags + (i - n_lags)) with i by lia.
    + unfold window. rewrite slice_length. lia.
    + intros k Hk. unfold window. apply nth_error_slice. lia.
    + rewrite nth_error_skipn. f_equal. lia.
  - intros Hle. split.
    + unfold range. replace (List.length s - n_lags) with 0 by lia. reflexivity.
    + apply skipn_all2. exact Hle.
Qed.

(** ** Split *)

Lemma boundary_exact_from_elim (n : nat) : forall z k,
  boundary_exact_from n z = true -> k < n ->
  boundary_exact (z + Z.of_nat k) = true.
Proof.
  induction n as [|n IH]; intros z k Hall Hk; [lia|].
  cbn [boundary_exact_from] in Hall. apply andb_true_iff in Hall as [Hz Hrest].
  destruct k as [|k].
  - now rewrite Z.add_0_r.
  - replace (z + Z.of_nat (S k))%Z with (Z.succ z + Z.of_nat k)%Z by lia.
    apply IH; [exact Hrest | lia].
Qed.

(** Every sample count the script can reach after [data.tail(10000)]. *)
Lemma boundary_exact_pipeline :
  boundary_exact_from (S (tail_size - n_lags)) 0 = true.
Proof. vm_compute. reflexivity. Qed.

Lemma train_size_floor (M : nat) :
  M <= tail_size - n_lags -> train_size M = Ok (floor_80_percent M).
Proof.
  intros HM.
  pose proof (@boundary_exact_from_elim _ 0%Z M boundary_exact_pipeline
                (le_n_S _ _ HM)) as H.
  rewrite Z.add_0_l in H. unfold boundary_exact in H.
  unfold train_size, floor_80_percent.
  destruct (int_of_float _) as [b| |]; try discriminate.
  apply Z.eqb_eq in H. now subst.
Qed.

Lemma floor_80_percent_spec (M : nat) :
  floor_80_percent M = 4 * M / 5.
Proof.
  unfold floor_80_percent, Qfloor. cbn [Qmult inject_Z Qnum Qden].
  change (Z.pos (10 * 1)) with 10%Z.
  apply Nat2Z.inj. rewrite Z2Nat.id by (apply Z.div_pos; lia).
  rewrite Nat2Z.inj_div, Nat2Z.inj_mul.
  change (Z.of_nat 4) with 4%Z. change (Z.of_nat 5) with 5%Z.
  replace (8 * Z.of_nat M)%Z with (2 * (4 * Z.of_nat M))%Z by lia.
  change 10%Z with (2 * 5)%Z.
  apply Z.div_mul_cancel_l; lia.
Qed.

Lemma floor_80_percent_le (M : nat) : floor_80_percent M <= M.
Proof.
  rewrite floor_80_percent_spec.
  apply Nat.Div0.div_le_upper_bound. lia.
Qed.

(** No sample is left on one side only: the boundary is 0 only for at most
    one sample and reaches [M] only for none. *)
Lemma floor_80_percent_lt (M : nat) : 0 < M -> floor_80_percent M < M.
Proof.
  intros HM. rewrite floor_80_percent_spec.
  apply Nat.Div0.div_lt_upper_bound. lia.
Qed.

Lemma floor_80_percent_pos (M : nat) : 2 <= M -> 0 < floor_80_percent M.
Proof.
  intros HM. rewrite floor_80_percent_spec.
  apply Nat.div_str_pos. lia.
Qed.

Section SplitFacts.
Context {A : Type}.

Lemma split_at_floor (X : list (list A)) (y : list A) :
  List.length X <= tail_size - n_lags ->
  let b := floor_80_percent (List.length X) in
  split X y = Ok (b, {| X_train := firstn b X; X_test := skipn b X;
                        y_train := firstn b y; y_test := skipn b y |}).
Proof.
  intros HM b. unfold split. rewrite train_size_floor by exact HM.
  unfold slice, slice_from. rewrite Nat.sub_0_r. reflexivity.
Qed.
End SplitFacts.

(** ** The script monad *)

Section ScriptFacts.
Context {A B : Type}.

Lemma outcome_bind (m : script A) (k : A -> script B) :
  outcome (bind m k)
  = match outcome m with
    | Ok a => outcome (k a)
    | Raise e => Raise e
    | SystemExit c => SystemExit c
    end.
Proof.
  destruct m as [out [a|e|c]]; cbn; try reflexivity.
  now destruct (k a).
Qed.

Lemma trace_bind (m : script A) (k : A -> script B) :
  trace (bind m k)
  = match outcome m with
    | Ok a => trace m ++ trace (k a)
    | _ => trace m
    end.
Proof.
  destruct m as [out [a|e|c]]; cbn; try reflexivity.
  now destruct (k a).
Qed.
End ScriptFacts.

Lemma outcome_impute (data : frame) : outcome (impute data) = Ok (imputed data).
Proof.
  unfold impute, imputed. now destruct (0 <? isnull_sum_sum data).
Qed.

(** [preprocess] never raises. *)
Lemma outcome_preprocess (t : DataFrame) :
  outcome (preprocess t) = Ok (prepared_of t).
Proof.
  unfold preprocess.
  rewrite outcome_bind, outcome_impute.
  rewrite outcome_bind. cbn [print emit outcome snd].
  rewrite outcome_bind. cbn [print emit outcome snd].
  rewrite outcome_bind. unfold lagged_features, lift. cbn [outcome snd].
  rewrite windowing_closed. cbn [fst snd].
  rewrite outcome_bind. cbn [print emit outcome snd].
  rewrite outcome_bind. cbn [print emit outcome snd].
  rewrite outcome_bind. cbn [outcome snd].
  rewrite split_at_floor.
  - reflexivity.
  - unfold range. rewrite length_map, length_seq, tail_length. lia.
Qed.

(** C4. For every input table the script splits the M samples it built at
    boundary = floor(0.8 * M): the training arrays are the first boundary
    samples and the test arrays the remaining ones, both in their original
    order, and training followed by test gives back the sample sequence
    (features and labels), so no sample is in both or in none. *)
Theorem split_chronological (t : DataFrame) :
  exists pre,
    outcome (preprocess t) = Ok pre
    /\ Z.of_nat (boundary pre)
       = Qfloor ((8 # 10) * inject_Z (Z.of_nat (List.length (X pre))))%Q
    /\ X_train (parts pre) = firstn (boundary pre) (X pre)
    /\ X_test (parts pre) = skipn (boundary pre) (X pre)
    /\ y_train (parts pre) = firstn (boundary pre) (y pre)
    /\ y_test (parts pre) = skipn (boundary pre) (y pre)
    /\ X_train (parts pre) ++ X_test (parts pre) = X pre
    /\ y_train (parts pre) ++ y_test (parts pre) = y pre
    /\ List.length (X_train (parts pre)) = boundary pre
    /\ List.length (X_train (parts pre)) + List.length (X_test (parts pre))
       = List.length (X pre).
Proof.
  exists (prepared_of t). split; [apply outcome_preprocess|].
  unfold prepared_of. cbn [boundary X y parts X_train X_test y_train y_test].
  set (s := tail tail_size _).
  set (Xs := map (window s) _).
  pose proof (floor_80_percent_le (List.length Xs)) as Hle.
  repeat split; try apply firstn_skipn.
  - unfold floor_80_percent. rewrite Z2Nat.id; [reflexivity|].
    rewrite <- (Qfloor_Z 0). apply Qfloor_resp_le.
    apply Qmult_le_0_compat; [discriminate|].
    unfold Qle. cbn. lia.
  - rewrite length_firstn. lia.
  - rewrite length_firstn, length_skipn. lia.
Qed.

(** ** Missing values *)

Section FillFacts.
Context {A : Type}.
Implicit Types s t gap : list (option A).

Lemma isnull_sum_zero s : isnull_sum s = 0 <-> Forall notnull s.
Proof.
  unfold isnull_sum, notnull. induction s as [|[v|] s IH]; cbn.
  - split; [constructor | reflexivity].
  - rewrite IH. split; intros H.
    + constructor; [discriminate | exact H].
    + now inversion H.
  - split; intros H; [discriminate | inversion H; congruence].
Qed.

Lemma ffill_from_length last s :
  List.length (ffill_from last s) = List.length s.
Proof.
  revert last. induction s as [|[v|] s IH]; intros last; cbn; auto.
Qed.

Lemma ffill_from_valid v s : Forall notnull (ffill_from (Some v) s).
Proof.
  revert v. induction s as [|[w|] s IH]; intros v; cbn; constructor;
    auto; discriminate.
Qed.

(** After [ffill] only a leading run can be missing. *)
Lemma ffill_shape s :
  exists k t,
    ffill s = repeat None k ++ t
    /\ Forall notnull t
    /\ ((exists v, In (Some v) s) -> t <> []).
Proof.
  unfold ffill. induction s as [|[v|] s IH].
  - exists 0, []. cbn. repeat split; [constructor|].
    intros [v []].
  - exists 0, (Some v :: ffill_from (Some v) s). cbn. repeat split.
    + constructor; [discriminate | apply ffill_from_valid].
    + discriminate.
  - destruct IH as (k & t & Heq & Hall & Hne).
    exists (S k), t. cbn. rewrite Heq. repeat split; [exact Hall|].
    intros [v [Hv|Hv]]; [discriminate|]. apply Hne. now exists v.
Qed.

Lemma bfill_valid t : Forall notnull t -> bfill t = t.
Proof.
  induction 1 as [|[v|] t Hx Ht IH]; cbn; [reflexivity| |].
  - now rewrite IH.
  - now elim Hx.
Qed.

Lemma bfill_leading k t :
  Forall notnull t -> t <> [] -> Forall notnull (bfill (repeat None k ++ t)).
Proof.
  intros Ht Hne. induction k as [|k IH]; cbn.
  - now rewrite bfill_valid.
  - constructor; [|exact IH].
    destruct (bfill (repeat None k ++ t)) as [|x r] eqn:Hb.
    + apply (f_equal (@List.length _)) in Hb.
      destruct t; [congruence|].
      revert Hb. clear. induction k; cbn.
      * destruct o; discriminate.
      * discriminate.
    + cbn. now inversion IH.
Qed.

Lemma bfill_keeps s : forall i v,
  nth_error s i = Some (Some v) -> nth_error (bfill s) i = Some (Some v).
Proof.
  induction s as [|[w|] s IH]; intros [|i] v H; cbn in *;
    try discriminate; auto.
Qed.

Lemma ffill_from_run v gap post : forall i,
  Forall (eq None) gap -> i < List.length gap ->
  nth_error (ffill_from (Some v) (gap ++ post)) i = Some (Some v).
Proof.
  induction gap as [|x gap IH]; intros i Hall Hi; cbn in Hi; [lia|].
  inversion Hall as [|? ? Hx Hrest]; subst. cbn.
  destruct i as [|i]; [reflexivity|]. apply IH; [exact Hrest | lia].
Qed.

(** Inside a gap [ffill] writes the last valid value before the gap. *)
Lemma ffill_from_gap pre v gap post i : forall last,
  Forall (eq None) gap -> i < List.length gap ->
  nth_error (ffill_from last (pre ++ Some v :: gap ++ post))
            (List.length pre + 1 + i) = Some (Some v).
Proof.
  induction pre as [|[w|] pre IH]; intros last Hall Hi.
  - cbn. now apply ffill_from_run.
  - cbn. now apply IH.
  - cbn. now apply IH.
Qed.

Lemma ffill_bfill_valid s :
  (exists v, In (Some v) s) -> Forall notnull (bfill (ffill s)).
Proof.
  intros Hv. destruct (ffill_shape s) as (k & t & -> & Ht & Hne).
  apply bfill_leading; auto.
Qed.

Lemma gap_is_missing pre v gap post i :
  Forall (eq None) gap -> i < List.length gap ->
  ~ Forall notnull (pre ++ Some v :: gap ++ post).
Proof.
  intros Hall Hi Hnn.
  apply Forall_app in Hnn as [_ Hnn]. inversion Hnn as [|? ? _ Hnn']; subst.
  apply Forall_app in Hnn' as [Hgap _].
  destruct gap as [|x gap]; cbn in Hi; [lia|].
  inversion Hall; inversion Hgap; subst. congruence.
Qed.
End FillFacts.

Lemma isnull_sum_sum_zero (data : frame) :
  isnull_sum_sum data = 0 <-> forall c, isnull_sum (data c) = 0.
Proof.
  unfold isnull_sum_sum, selected_columns. cbn [fold_right]. split.
  - intros H []; lia.
  - intros H. rewrite !H. reflexivity.
Qed.

(** C7. When each of the four selected columns holds at least one valid
    value, the imputation step of the script returns a frame, and both that
    frame and [data.ffill().bfill()] have no missing value in any of the
    four columns; every position inside a gap that follows a valid value
    holds the last valid value before the gap. *)
Theorem fill_leaves_no_missing (data : frame) :
  (forall c, exists v, In (Some v) (data c)) ->
  outcome (impute data) = Ok (imputed data)
  /\ forall filled,
       filled = imputed data \/ filled = ffill_bfill data ->
       (forall c, isnull_sum (filled c) = 0)
       /\ (forall c pre v gap post i,
             data c = pre ++ Some v :: gap ++ post ->
             Forall (eq None) gap -> i < List.length gap ->
             nth_error (filled c) (List.length pre + 1 + i) = Some (Some v)).
Proof.
  intros Hvalid. split; [apply outcome_impute|].
  assert (Hfb : (forall c, isnull_sum (ffill_bfill data c) = 0)
                /\ (forall c pre v gap post i,
                      data c = pre ++ Some v :: gap ++ post ->
                      Forall (eq None) gap -> i < List.length gap ->
                      nth_error (ffill_bfill data c) (List.length pre + 1 + i)
                      = Some (Some v))).
  { split.
    - intros c. apply isnull_sum_zero, ffill_bfill_valid, Hvalid.
    - intros c pre v gap post i Hc Hgap Hi. unfold ffill_bfill.
      apply bfill_keeps. rewrite Hc. now apply ffill_from_gap. }
  intros filled [->| ->]; [|exact Hfb].
  unfold imputed. destruct (Nat.ltb_spec 0 (isnull_sum_sum data)) as [Hpos|Hzero];
    [exact Hfb|].
  assert (Hz : forall c, isnull_sum (data c) = 0)
    by (apply isnull_sum_sum_zero; lia).
  split; [exact Hz|].
  intros c pre v gap post i Hc Hgap Hi. exfalso.
  apply (gap_is_missing pre v post Hgap Hi). rewrite <- Hc.
  apply isnull_sum_zero, Hz.
Qed.

(** An irradiance column with a gap of five rows after the value 5. *)
Lemma fill_leaves_no_missing_witness :
  (forall c, exists v, In (Some v) (frame_with_gap c))
  /\ (forall c, isnull_sum (ffill_bfill frame_with_gap c) = 0)
  /\ (forall i, i < 5 ->
      nth_error (ffill_bfill frame_with_gap irradiance) (2 + i) = Some (Some 5%Q)).
Proof.
  assert (H : forall c, exists v, In (Some v) (frame_with_gap c)).
  { intros []; eexists; cbn; left; reflexivity. }
  split; [exact H|].
  destruct (fill_leaves_no_missing frame_with_gap H) as [_ Hfill].
  destruct (Hfill (ffill_bfill frame_with_gap) (or_intror eq_refl))
    as [Hzero Hgap].
  split; [exact Hzero|].
  intros i Hi.
  apply (Hgap irradiance [Some 3%Q] 5%Q [None; None; None; None; None]
              [Some 8%Q] i).
  - reflexivity.
  - repeat constructor.
  - exact Hi.
Defined.

(** ** Min-max scaling *)

Section ZipFacts.
Context {A B C : Type} (f : A -> B -> C).

Lemma zip_with_length (l1 : list A) : forall (l2 : list B),
  List.length (zip_with f l1 l2) = Nat.min (List.length l1) (List.length l2).
Proof.
  induction l1 as [|a l1 IH]; intros [|b l2]; cbn; auto.
Qed.
End ZipFacts.

Lemma fold_zip_width (g : Q -> Q -> Q) (w : nat) (rest : list (list Q)) :
  forall r, List.length r = w -> rectangular w rest ->
  List.length (fold_left (zip_with g) rest r) = w.
Proof.
  induction rest as [|r' rest IH]; intros r Hr Hrest; cbn; [exact Hr|].
  inversion Hrest as [|? ? Hr' Hrest']; subst.
  apply IH; [|exact Hrest']. rewrite zip_with_length. lia.
Qed.

Lemma fitted_width (w : nat) (X : list (list Q)) :
  X <> [] -> rectangular w X -> List.length (data_min_ (fitted_on X)) = w.
Proof.
  intros Hne Hrect. destruct X as [|r rest]; [congruence|].
  inversion Hrect; subst. cbn. now apply fold_zip_width.
Qed.

Lemma n_features_ok_rectangular (s : MinMaxScaler) (X : list (list Q)) :
  rectangular (List.length (data_min_ s)) X -> n_features_ok s X = true.
Proof.
  intros Hrect. unfold n_features_ok. apply forallb_forall.
  intros r Hr. apply Nat.eqb_eq.
  unfold rectangular in Hrect. rewrite Forall_forall in Hrect. now apply Hrect.
Qed.

Lemma fit_nonempty (c : call) (X : list (list Q)) :
  X <> [] -> fit c X = Ok (fitted_on X).
Proof. destruct X; [congruence | reflexivity]. Qed.

Lemma transform_rectangular (c : call) (s : MinMaxScaler) (X : list (list Q)) :
  X <> [] -> rectangular (List.length (data_min_ s)) X ->
  transform c s X = Ok (map (transform_row s) X).
Proof.
  intros Hne Hrect. unfold transform.
  rewrite n_features_ok_rectangular by exact Hrect.
  destruct X; [congruence | reflexivity].
Qed.

Lemma fit_transform_rectangular (c : call) (w : nat) (X : list (list Q)) :
  X <> [] -> rectangular w X ->
  fit_transform c X = Ok (fitted_on X, map (transform_row (fitted_on X)) X).
Proof.
  intros Hne Hrect. unfold fit_transform.
  rewrite fit_nonempty by exact Hne.
  rewrite transform_rectangular; [reflexivity | exact Hne |].
  now rewrite (fitted_width Hne Hrect).
Qed.

Lemma reshape_column_rectangular (a : list Q) : rectangular 1 (reshape_column a).
Proof.
  unfold rectangular, reshape_column. apply Forall_forall.
  intros r Hr. apply in_map_iff in Hr as (v & <- & _). reflexivity.
Qed.

Lemma reshape_column_nonempty (a : list Q) : a <> [] -> reshape_column a <> [].
Proof. destruct a; [congruence | discriminate]. Qed.

(** [scale] succeeds on well-shaped arrays. *)
Lemma outcome_scale (w : nat) (p : partition Q) :
  well_shaped w p -> outcome (scale p) = Ok (scaled_of p).
Proof.
  intros [Hxtr Hxte Hytr Hyte Hwtr Hwte]. unfold scale.
  rewrite outcome_bind. cbn [emit outcome snd].
  rewrite outcome_bind. unfold lift at 1. cbn [outcome snd].
  rewrite (fit_transform_rectangular _ Hxtr Hwtr). cbn [fst snd].
  rewrite outcome_bind. cbn [emit outcome snd].
  rewrite outcome_bind. unfold lift at 1. cbn [outcome snd].
  rewrite transform_rectangular;
    [|exact Hxte | now rewrite (fitted_width Hxtr Hwtr)].
  rewrite outcome_bind. cbn [emit outcome snd].
  rewrite outcome_bind. unfold lift at 1. cbn [outcome snd].
  rewrite (fit_transform_rectangular _ (reshape_column_nonempty Hytr)
             (reshape_column_rectangular _)). cbn [fst snd].
  rewrite outcome_bind. cbn [emit outcome snd].
  rewrite outcome_bind. unfold lift at 1. cbn [outcome snd].
  rewrite transform_rectangular.
  - reflexivity.
  - now apply reshape_column_nonempty.
  - rewrite (fitted_width (reshape_column_nonempty Hytr)
               (reshape_column_rectangular _)).
    apply reshape_column_rectangular.
Qed.

(** C5. Two runs of the scaling stage whose training arrays are the same
    and whose test arrays may differ both succeed with the same fitted
    scalers: the stored minima and maxima are those of the training
    features and of the training labels.  In each run the test features and
    test labels are mapped row by row with that run's fitted parameters,
    with no second fit. *)
Theorem scalers_fit_on_training_only (w : nat) (p1 p2 : partition Q) :
  X_train p1 = X_train p2 -> y_train p1 = y_train p2 ->
  well_shaped w p1 -> well_shaped w p2 ->
  exists s1 s2,
    outcome (scale p1) = Ok s1 /\ outcome (scale p2) = Ok s2
    /\ scaler_X s1 = scaler_X s2 /\ scaler_y s1 = scaler_y s2
    /\ data_min_ (scaler_X s1) = column_min (X_train p1)
    /\ data_max_ (scaler_X s1) = column_max (X_train p1)
    /\ data_min_ (scaler_y s1) = column_min (reshape_column (y_train p1))
    /\ data_max_ (scaler_y s1) = column_max (reshape_column (y_train p1))
    /\ X_test_scaled s1 = map (transform_row (scaler_X s1)) (X_test p1)
    /\ X_test_scaled s2 = map (transform_row (scaler_X s1)) (X_test p2)
    /\ y_test_scaled s1
       = flatten (map (transform_row (scaler_y s1)) (reshape_column (y_test p1)))
    /\ y_test_scaled s2
       = flatten (map (transform_row (scaler_y s1)) (reshape_column (y_test p2))).
Proof.
  intros HX Hy H1 H2.
  exists (scaled_of p1), (scaled_of p2).
  rewrite (outcome_scale H1), (outcome_scale H2).
  unfold scaled_of. cbn [scaler_X scaler_y X_test_scaled y_test_scaled].
  rewrite <- HX, <- Hy. repeat split; reflexivity.
Qed.

(** Two runs on the same three training samples with different test
    samples. *)
Lemma scalers_fit_on_training_only_witness :
  X_train partition_a = X_train partition_b
  /\ y_train partition_a = y_train partition_b
  /\ well_shaped 2 partition_a /\ well_shaped 2 partition_b
  /\ exists s1 s2,
       outcome (scale partition_a) = Ok s1
       /\ outcome (scale partition_b) = Ok s2
       /\ scaler_X s1 = scaler_X s2 /\ scaler_y s1 = scaler_y s2.
Proof.
  assert (Ha : well_shaped 2 partition_a)
    by (constructor; cbn; try discriminate; repeat constructor).
  assert (Hb : well_shaped 2 partition_b)
    by (constructor; cbn; try discriminate; repeat constructor).
  split; [reflexivity|]. split; [reflexivity|].
  split; [exact Ha|]. split; [exact Hb|].
  destruct (@scalers_fit_on_training_only 2 partition_a partition_b
              eq_refl eq_refl Ha Hb)
    as (s1 & s2 & H1 & H2 & HX & Hy & _).
  exists s1, s2. repeat (split; [assumption|]). exact Hy.
Defined.

(** *** The label scaler *)

Lemma Qmin_case (x y : Q) : Qmin x y = x \/ Qmin x y = y.
Proof.
  unfold Qmin, GenericMinMax.gmin. destruct (x ?= y)%Q; auto.
Qed.

Lemma Qmax_case (x y : Q) : Qmax x y = x \/ Qmax x y = y.
Proof.
  unfold Qmax, GenericMinMax.gmax. destruct (x ?= y)%Q; auto.
Qed.

Lemma column_fold_labels (g : Q -> Q -> Q) (l : list Q) : forall a,
  fold_left (zip_with g) (reshape_column l) [a] = [fold_left g l a].
Proof.
  induction l as [|v l IH]; intros a; cbn; [reflexivity | apply IH].
Qed.

Lemma fold_Qmin_least (l : list Q) : forall a,
  let m := fold_left Qmin l a in
  In m (a :: l) /\ (forall v, In v (a :: l) -> m <= v)%Q.
Proof.
  induction l as [|x l IH]; intros a; cbn [fold_left].
  - split; [now left|]. intros v [<-|[]]. apply Qle_refl.
  - destruct (IH (Qmin a x)) as [Hin Hle]. split.
    + destruct Hin as [Hin|Hin]; [|now right; right].
      rewrite <- Hin. destruct (Qmin_case a x) as [->| ->]; [now left|].
      right; now left.
    + intros v [<-|[<-|Hv]].
      * eapply Qle_trans; [apply Hle; now left | apply Q.le_min_l].
      * eapply Qle_trans; [apply Hle; now left | apply Q.le_min_r].
      * apply Hle. now right.
Qed.

Lemma fold_Qmax_greatest (l : list Q) : forall a,
  let m := fold_left Qmax l a in
  In m (a :: l) /\ (forall v, In v (a :: l) -> v <= m)%Q.
Proof.
  induction l as [|x l IH]; intros a; cbn [fold_left].
  - split; [now left|]. intros v [<-|[]]. apply Qle_refl.
  - destruct (IH (Qmax a x)) as [Hin Hle]. split.
    + destruct Hin as [Hin|Hin]; [|now right; right].
      rewrite <- Hin. destruct (Qmax_case a x) as [->| ->]; [now left|].
      right; now left.
    + intros v [<-|[<-|Hv]].
      * eapply Qle_trans; [apply Q.le_max_l | apply Hle; now left].
      * eapply Qle_trans; [apply Q.le_max_r | apply Hle; now left].
      * apply Hle. now right.
Qed.

(** The label scaler stores the least and the greatest training label. *)
Lemma fit_labels (c : call) (y_train : list Q) :
  y_train <> [] ->
  exists mn mx,
    fit c (reshape_column y_train) = Ok {| data_min_ := [mn]; data_max_ := [mx] |}
    /\ In mn y_train /\ In mx y_train
    /\ (forall v, In v y_train -> mn <= v <= mx)%Q.
Proof.
  destruct y_train as [|a l]; [congruence|]. intros _.
  exists (fold_left Qmin l a), (fold_left Qmax l a).
  destruct (fold_Qmin_least l a) as [Hmin Hle].
  destruct (fold_Qmax_greatest l a) as [Hmax Hge].
  repeat split; auto.
  cbn [reshape_column map fit column_min column_max].
  fold (reshape_column l). now rewrite !column_fold_labels.
Qed.

Section LabelScaler.
Variables mn mx : Q.

Let s : MinMaxScaler := {| data_min_ := [mn]; data_max_ := [mx] |}.
Let sc : Q := ((1 - 0) / handle_zeros_in_scale (mx - mn))%Q.








End LabelScaler.




(** ** Error metrics *)

Lemma Qlen_cons {A : Type} (x : A) (l : list A) : (Qlen (x :: l) == Qlen l + 1)%Q.
Proof.
  unfold Qlen. cbn [List.length].
  now rewrite Nat2Z.inj_succ, <- Z.add_1_r, inject_Z_plus.
Qed.

Lemma Qlen_nonneg {A : Type} (l : list A) : (0 <= Qlen l)%Q.
Proof. unfold Qlen, Qle. cbn. lia. Qed.

Lemma Qlen_pos {A : Type} (l : list A) : l <> [] -> (0 < Qlen l)%Q.
Proof.
  destruct l; [congruence|]. intros _. unfold Qlen, Qlt. cbn. lia.
Qed.

Lemma square_nonneg (d : Q) : (0 <= d * d)%Q.
Proof. nra. Qed.

Lemma Qabs_square (x : Q) : (Qabs x * Qabs x == square x)%Q.
Proof.
  unfold square. rewrite <- Qabs_Qmult. apply Qabs_pos, square_nonneg.
Qed.

Lemma sum_abs_nonneg (r : list Q) : (0 <= np_sum (map Qabs r))%Q.
Proof.
  induction r as [|x r IH]; cbn [map np_sum fold_right]; [apply Qle_refl|].
  fold (np_sum (map Qabs r)). pose proof (Qabs_nonneg x). lra.
Qed.

(** 2 c (sum |r|) <= sum r^2 + n c^2, summing (|r_i| - c)^2 >= 0. *)
Lemma sum_abs_cross (r : list Q) (c : Q) :
  (2 * c * np_sum (map Qabs r) <= np_sum (map square r) + Qlen r * (c * c))%Q.
Proof.
  induction r as [|x r IH].
  - unfold Qlen, inject_Z. cbn [map np_sum fold_right List.length Z.of_nat]. nra.
  - rewrite Qlen_cons. cbn [map np_sum fold_right].
    fold (np_sum (map Qabs r)). fold (np_sum (map square r)).
    pose proof (Qabs_square x) as Hx.
    set (a := Qabs x) in *. set (S := np_sum (map Qabs r)) in *.
    set (T := np_sum (map square r)) in *. set (n := Qlen r) in *.
    pose proof (square_nonneg (a - c)). lra.
Qed.

(** (sum |r|)^2 <= n sum r^2 *)
Lemma sum_abs_squared (r : list Q) :
  (np_sum (map Qabs r) * np_sum (map Qabs r)
   <= Qlen r * np_sum (map square r))%Q.
Proof.
  induction r as [|x r IH].
  - unfold Qlen, inject_Z. cbn [map np_sum fold_right List.length Z.of_nat]. nra.
  - rewrite Qlen_cons. cbn [map np_sum fold_right].
    fold (np_sum (map Qabs r)). fold (np_sum (map square r)).
    pose proof (Qabs_square x) as Hx.
    pose proof (sum_abs_cross r (Qabs x)) as Hc.
    set (a := Qabs x) in *. set (S := np_sum (map Qabs r)) in *.
    set (T := np_sum (map square r)) in *. set (n := Qlen r) in *.
    assert (Hn : (n * (a * a) == n * square x)%Q) by now rewrite Hx.
    lra.
Qed.

(** The mean absolute value is at most the root of the mean square. *)
Lemma mean_abs_le_root_mean_square (r : list Q) :
  r <> [] ->
  (0 <= mean_of (map Qabs r))%Q
  /\ (mean_of (map Qabs r) * mean_of (map Qabs r) <= mean_of (map square r))%Q.
Proof.
  intros Hne. unfold mean_of. unfold Qlen at 1 2 3 4.
  rewrite !length_map. fold (Qlen r).
  pose proof (Qlen_pos Hne) as Hn.
  pose proof (sum_abs_nonneg r) as HS.
  pose proof (sum_abs_squared r) as Hsq.
  set (S := np_sum (map Qabs r)) in *. set (T := np_sum (map square r)) in *.
  set (n := Qlen r) in *.
  assert (Hi : (0 < / n)%Q) by now apply Qinv_lt_0_compat.
  assert (Hone : (/ n * n == 1)%Q) by (field; lra).
  unfold Qdiv. set (i := (/ n)%Q) in *.
  split; [apply Qmult_le_0_compat; lra|].
  assert (H1 : (S * S * (i * i) <= n * T * (i * i))%Q).
  { apply Qmult_le_compat_r; [exact Hsq | apply square_nonneg]. }
  assert (H2 : (n * T * (i * i) == T * i * (i * n))%Q) by ring.
  rewrite H2, Hone in H1. lra.
Qed.

Lemma residuals_nonempty (y_true y_pred : list Q) :
  y_true <> [] -> List.length y_pred = List.length y_true ->
  residuals y_true y_pred <> [].
Proof.
  destruct y_true, y_pred; cbn; congruence.
Qed.

Lemma check_consistent_ok (c : call) (y_true y_pred : list Q) :
  y_true <> [] -> List.length y_pred = List.length y_true ->
  check_consistent c y_true y_pred = Ok tt.
Proof.
  intros Hne Hlen. unfold check_consistent. rewrite Hlen, Nat.eqb_refl.
  destruct y_true; [congruence | reflexivity].
Qed.

Lemma outcome_evaluate (y_test predictions : list Q) :
  y_test <> [] -> List.length predictions = List.length y_test ->
  outcome (evaluate y_test predictions)
  = Ok {| rmse := np_sqrt (mean_of (map square (residuals y_test predictions)));
          mae := mean_of (map Qabs (residuals y_test predictions));
          mape := mape_guarded y_test predictions |}.
Proof.
  intros Hne Hlen. unfold evaluate, mean_squared_error, mean_absolute_error.
  rewrite !check_consistent_ok by assumption. reflexivity.
Qed.

(** The exact values of the two formulas.  For a non-empty test split with
    one prediction per test label, sqrt(mean((actual - predicted)^2)) and
    mean(|actual - predicted|) over the same residuals, taken as real
    numbers without rounding, satisfy RMSE >= MAE >= 0. *)
Lemma exact_rmse_ge_mae (y_test predictions : list Q) :
  y_test <> [] -> List.length predictions = List.length y_test ->
  exists m,
    outcome (evaluate y_test predictions) = Ok m
    /\ rmse m = sqrt (Q2R (mean_of (map square (residuals y_test predictions))))
    /\ mae m = mean_of (map Qabs (residuals y_test predictions))
    /\ (0 <= Q2R (mae m) <= rmse m)%R.
Proof.
  intros Hne Hlen. eexists. split; [now apply outcome_evaluate|].
  cbn [rmse mae]. unfold np_sqrt. repeat split.
  - destruct (mean_abs_le_root_mean_square
                (@residuals_nonempty y_test predictions Hne Hlen)) as [H0 _].
    apply Qle_Rle in H0. now rewrite RMicromega.Q2R_0 in H0.
  - destruct (mean_abs_le_root_mean_square
                (@residuals_nonempty y_test predictions Hne Hlen)) as [H0 Hsq].
    apply Qle_Rle in H0, Hsq. rewrite RMicromega.Q2R_0 in H0.
    rewrite Q2R_mult in Hsq.
    rewrite <- (sqrt_square _ H0) at 1. now apply sqrt_le_1_alt.
Qed.

(** Two test labels and their predictions. *)
Lemma exact_rmse_ge_mae_witness :
  [2; 0]%Q <> [] /\ List.length [1; 2]%Q = List.length [2; 0]%Q
  /\ exists m,
       outcome (evaluate [2; 0]%Q [1; 2]%Q) = Ok m
       /\ (0 <= Q2R (mae m) <= rmse m)%R.
Proof.
  assert (Hne : [2; 0]%Q <> []) by discriminate.
  split; [exact Hne|]. split; [reflexivity|].
  destruct (@exact_rmse_ge_mae [2; 0]%Q [1; 2]%Q Hne eq_refl)
    as (m & Hm & _ & _ & Hle).
  exists m. split; [exact Hm | exact Hle].
Defined.

(** *** The computed metrics *)

Lemma round_aux_sign_clear (m e : Z) (l : location) :
  sign_clear (binary_round_aux prec emax false m e l).
Proof.
  unfold binary_round_aux.
  destruct (shr_fexp prec emax m e l) as [mrs' e'].
  match goal with
  | |- context [shr_fexp ?p ?x ?m' ?d ?l'] =>
      destruct (shr_fexp p x m' d l') as [mrs'' e'']
  end.
  destruct (shr_m mrs''); [exact I| |exact I].
  destruct (Z.leb e'' (emax - prec)); exact I.
Qed.

Lemma normalize_sign_clear (m e : Z) :
  (0 <= m)%Z -> sign_clear (binary_normalize prec emax m e false).
Proof.
  intros Hm. destruct m as [|p|p]; [exact I| |lia].
  unfold binary_normalize, binary_round.
  destruct (shl_align p e _) as [mz ez]. apply round_aux_sign_clear.
Qed.

Lemma add_sign_clear (x y : spec_float) :
  sign_clear x -> sign_clear y -> sign_clear (SF64add x y).
Proof.
  unfold SF64add, SFadd.
  destruct x as [[|]|[|]| |[|] mx ex]; destruct y as [[|]|[|]| |[|] my ey];
    cbn [sign_clear]; try tauto.
  intros _ _. apply normalize_sign_clear. cbn [cond_Zopp]. lia.
Qed.

Lemma abs_sign_clear (x : spec_float) : sign_clear (SFabs x).
Proof. destruct x; exact I. Qed.

Lemma square_sign_clear (x : spec_float) : sign_clear (SF64mul x x).
Proof.
  unfold SF64mul, SFmul. destruct x as [[|]|[|]| |[|] mx ex];
    cbn [xorb]; try exact I; apply round_aux_sign_clear.
Qed.

Lemma div_sign_clear (x y : spec_float) :
  sign_clear x -> sign_clear y -> sign_clear (SF64div x y).
Proof.
  unfold SF64div, SFdiv.
  destruct x as [[|]|[|]| |[|] mx ex]; destruct y as [[|]|[|]| |[|] my ey];
    cbn [sign_clear xorb]; try tauto.
  intros _ _. destruct (SFdiv_core_binary _ _ _ _ _ _) as [[mz ez] lz].
  apply round_aux_sign_clear.
Qed.

Lemma sqrt_sign_clear (x : spec_float) :
  sign_clear x -> sign_clear (SF64sqrt x).
Proof.
  unfold SF64sqrt, SFsqrt. destruct x as [[|]|[|]| |[|] mx ex];
    cbn [sign_clear]; try tauto.
  intros _. destruct (SFsqrt_core_binary _ _ _ _) as [[mz ez] lz].
  apply round_aux_sign_clear.
Qed.

Lemma float_of_int_sign_clear (n : Z) : sign_clear (Prim2SF (float_of_int n)).
Proof.
  unfold float_of_int. rewrite FloatAxioms.of_uint63_spec.
  apply normalize_sign_clear. apply Uint63.to_Z_bounded.
Qed.

Lemma sum_sign_clear (l : list float) : forall acc,
  sign_clear (Prim2SF acc) ->
  Forall (fun x => sign_clear (Prim2SF x)) l ->
  sign_clear (Prim2SF (fold_left PrimFloat.add l acc)).
Proof.
  induction l as [|x l IH]; intros acc Hacc Hl; cbn [fold_left]; [exact Hacc|].
  inversion Hl as [|? ? Hx Hl']; subst. apply IH; [|exact Hl'].
  rewrite FloatAxioms.add_spec. now apply add_sign_clear.
Qed.

Lemma mean_sign_clear (l : list float) :
  Forall (fun x => sign_clear (Prim2SF x)) l ->
  sign_clear (Prim2SF (np_mean_binary64 l)).
Proof.
  intros Hl. unfold np_mean_binary64, np_sum_binary64. rewrite FloatAxioms.div_spec.
  apply div_sign_clear; [|apply float_of_int_sign_clear].
  apply sum_sign_clear; [exact I | exact Hl].
Qed.

(** A float whose sign bit is not set is not below zero. *)
Lemma sign_clear_not_negative (x : float) :
  sign_clear (Prim2SF x) -> (x <? 0)%float = false.
Proof.
  intros Hx. rewrite FloatAxioms.ltb_spec.
  change (Prim2SF 0%float) with (S754_zero false).
  destruct (Prim2SF x) as [[|]|[|]| |[|] m e]; cbn in Hx; try tauto;
    reflexivity.
Qed.

(** C9 (as the code has it). For every test split and every vector of
    predictions, the MAE and the RMSE the script computes in binary64 are
    never negative: each is greater than or equal to 0, or NaN. *)
Theorem computed_metrics_not_negative (y_test predictions : list float) :
  (mae_binary64 y_test predictions <? 0)%float = false
  /\ (rmse_binary64 y_test predictions <? 0)%float = false.
Proof.
  split; apply sign_clear_not_negative.
  - unfold mae_binary64, mean_absolute_error_binary64.
    apply mean_sign_clear, Forall_map, Forall_forall. intros r _.
    rewrite FloatAxioms.abs_spec. apply abs_sign_clear.
  - unfold rmse_binary64, mean_squared_error_binary64.
    rewrite FloatAxioms.sqrt_spec. apply sqrt_sign_clear.
    apply mean_sign_clear, Forall_map, Forall_forall. intros r _.
    rewrite FloatAxioms.mul_spec. apply square_sign_clear.
Qed.

(** C9 as stated fails: for three test labels of 0.1 predicted as 0.0 the
    residuals are 0.1 each; the computed MAE is 0x1.999999999999bp-4
    (0.10000000000000002) and the computed RMSE is 0x1.999999999999ap-4
    (0.1), less than the MAE. *)
Lemma computed_rmse_below_mae :
  three_tenths <> []
  /\ List.length three_zeros = List.length three_tenths
  /\ mae_binary64 three_tenths three_zeros = 0x1.999999999999bp-4%float
  /\ rmse_binary64 three_tenths three_zeros = 0x1.999999999999ap-4%float
  /\ (rmse_binary64 three_tenths three_zeros
      <? mae_binary64 three_tenths three_zeros)%float = true.
Proof.
  split; [discriminate|]. split; [reflexivity|].
  split; [vm_compute; reflexivity|]. split; vm_compute; reflexivity.
Qed.

(** ** The whole run *)

Lemma main_missing_file (SVR : Estimator) :
  main SVR None
  = ([Print (Text "Error: 'cleaned_dataset.csv' not found. Please ensure the file is in the same directory.")],
     SystemExit None).
Proof. reflexivity. Qed.

Lemma main_run (SVR : Estimator) (t : DataFrame) :
  main SVR (Some t)
  = (Print (Text "Dataset loaded successfully.")
       :: trace (preprocess t) ++ trace (run_model SVR t (prepared_of t)),
     outcome (run_model SVR t (prepared_of t))).
Proof.
  unfold main.
  cbn [load try_except_FileNotFoundError bind ret print emit app].
  pose proof (outcome_preprocess t) as Hpre.
  destruct (preprocess t) as [tr r]. cbn [outcome snd] in Hpre. subst r.
  cbn [bind trace fst].
  destruct (run_model SVR t (prepared_of t)) as [tr' r'].
  cbn [app outcome trace fst snd]. reflexivity.
Qed.

Lemma preprocess_prints (t : DataFrame) (e : event) :
  In e (trace (preprocess t)) -> exists l, e = Print l.
Proof.
  unfold preprocess.
  rewrite trace_bind, outcome_impute.
  rewrite trace_bind. cbn [print emit outcome trace fst snd].
  rewrite trace_bind. cbn [print emit outcome trace fst snd].
  rewrite trace_bind. unfold lagged_features, lift at 1 2.
  cbn [outcome trace fst snd]. rewrite windowing_closed.
  rewrite trace_bind. cbn [print emit outcome trace fst snd].
  rewrite trace_bind. cbn [print emit outcome trace fst snd].
  rewrite trace_bind. unfold lift at 1 2. cbn [outcome trace fst snd].
  rewrite split_at_floor
    by (unfold range; rewrite length_map, length_seq, tail_length; lia).
  cbn [bind print emit ret trace fst snd app].
  unfold impute. destruct (0 <? isnull_sum_sum _);
    cbn [bind print emit ret trace fst snd app In];
    intuition (subst; eauto).
Qed.

Lemma sort_index_length (l : list row) :
  List.length (sort_index l) = List.length l.
Proof.
  assert (Hins : forall r s, List.length (insert_row r s) = S (List.length s)).
  { intros r s. induction s as [|h s IH]; cbn; [reflexivity|].
    destruct (date r <=? date h)%Z; cbn; auto. }
  unfold sort_index.
  induction l as [|r l IH]; cbn [fold_right List.length]; [reflexivity|].
  now rewrite Hins, IH.
Qed.

Lemma bfill_length {A : Type} (s : list (option A)) :
  List.length (bfill s) = List.length s.
Proof. induction s as [|[v|] s IH]; cbn; auto. Qed.

Lemma imputed_length (data : frame) (c : column) :
  List.length (imputed data c) = List.length (data c).
Proof.
  unfold imputed, ffill_bfill, ffill. destruct (0 <? isnull_sum_sum data);
    [now rewrite bfill_length, ffill_from_length | reflexivity].
Qed.

(** The sizes of a run, from the number of rows of the table. *)
Lemma prepared_sizes (t : DataFrame) :
  let pre := prepared_of t in
  let N := List.length (rows t) in
  let M := Nat.min tail_size N - n_lags in
  List.length (index (df pre)) = N
  /\ len (data pre) = Nat.min tail_size N
  /\ List.length (X pre) = M
  /\ boundary pre = floor_80_percent M
  /\ List.length (X_train (parts pre)) = floor_80_percent M
  /\ List.length (X_test (parts pre)) = M - floor_80_percent M
  /\ List.length (y_train (parts pre)) = floor_80_percent M
  /\ List.length (y_test (parts pre)) = M - floor_80_percent M.
Proof.
  cbv zeta. unfold prepared_of, len, index.
  cbn [df data X boundary parts X_train X_test y_train y_test].
  set (s := tail tail_size _).
  assert (Hs : List.length s = Nat.min tail_size (List.length (rows t))).
  { unfold s. rewrite tail_length, imputed_length. unfold select.
    now rewrite length_map, sort_index_length. }
  assert (HX : List.length (map (window s) (range n_lags (List.length s)))
               = Nat.min tail_size (List.length (rows t)) - n_lags).
  { unfold range. now rewrite length_map, length_seq, Hs. }
  set (Xs := map (window s) _) in *.
  set (M := Nat.min tail_size (List.length (rows t)) - n_lags) in *.
  pose proof (floor_80_percent_le M) as Hle.
  assert (Hy : List.length (skipn n_lags s) = M)
    by (rewrite length_skipn, Hs; reflexivity).
  repeat split.
  - now rewrite length_map, sort_index_length.
  - exact Hs.
  - exact HX.
  - now rewrite HX.
  - rewrite length_firstn, HX. lia.
  - rewrite length_skipn, HX. reflexivity.
  - rewrite length_firstn, Hy, HX. lia.
  - rewrite length_skipn, Hy, HX. reflexivity.
Qed.

(** *** A missing input file *)

(** C8 (as the code has it). When the input file is missing the script
    prints the one diagnostic line and terminates at once in [exit()],
    called without a status: nothing else is printed, no library call is
    made, no figure is shown, and the exit status is 0. *)
Theorem missing_file_exits (SVR : Estimator) :
  trace (main SVR None)
  = [Print (Text "Error: 'cleaned_dataset.csv' not found. Please ensure the file is in the same directory.")]
  /\ stdout (main SVR None)
     = [Text "Error: 'cleaned_dataset.csv' not found. Please ensure the file is in the same directory."]
  /\ outcome (main SVR None) = SystemExit None
  /\ exit_status (main SVR None) = 0%Z.
Proof. repeat split. Qed.

(** C8 as stated fails: the early exit has status 0, not a non-zero one. *)
Lemma missing_file_status_zero :
  outcome (main null_svr None) = SystemExit None
  /\ ~ exit_status (main null_svr None) <> 0%Z.
Proof. split; [reflexivity | intros H; now apply H]. Qed.

(** *** Too little data *)

Lemma empty_test_is_empty_train (t : DataFrame) :
  X_test (parts (prepared_of t)) = [] -> X_train (parts (prepared_of t)) = [].
Proof.
  intros Hte. apply length_zero_iff_nil.
  destruct (prepared_sizes t) as (_ & _ & _ & _ & Htr & Htest & _).
  rewrite Hte in Htest. cbn [List.length] in Htest. rewrite Htr.
  set (M := Nat.min tail_size (List.length (rows t)) - n_lags) in *.
  destruct M as [|M]; [reflexivity|].
  pose proof (@floor_80_percent_lt (S M)). lia.
Qed.

Lemma run_model_empty_train (SVR : Estimator) (t : DataFrame) (pre : prepared) :
  X_train (parts pre) = [] ->
  run_model SVR t pre
  = ([Call scaler_X_fit_transform 0], Raise (ValueError scaler_X_fit_transform)).
Proof.
  intros Hempty. unfold run_model, finite_partition. rewrite Hempty.
  cbn [map all_finite].
  destruct (all_finite (map all_finite (X_test (parts pre)))) as [xte|];
    [destruct (all_finite (y_train (parts pre))) as [ytr|];
     [destruct (all_finite (y_test (parts pre))) as [yte|]|]|];
    try (unfold run_with_nan; rewrite Hempty; reflexivity).
  reflexivity.
Qed.

(** C2 (as the code has it). When the split leaves no training sample or
    no test sample, the training arrays are empty (an empty test set only
    occurs with an empty training set).  The script checks nothing: after
    the lines of the loading and preprocessing steps it calls
    [scaler_X.fit_transform] on the empty training array, and the run ends
    in the [ValueError] that this library call raises.  No other library
    call is made; the estimator is not reached. *)
Theorem empty_partition_fails_in_scaler (SVR : Estimator) (t : DataFrame) :
  X_train (parts (prepared_of t)) = [] \/ X_test (parts (prepared_of t)) = [] ->
  outcome (preprocess t) = Ok (prepared_of t)
  /\ X_train (parts (prepared_of t)) = []
  /\ trace (main SVR (Some t))
     = Print (Text "Dataset loaded successfully.")
         :: trace (preprocess t) ++ [Call scaler_X_fit_transform 0]
  /\ (forall e, In e (trace (preprocess t)) -> exists l, e = Print l)
  /\ (forall c n, In (Call c n) (trace (main SVR (Some t))) ->
      c = scaler_X_fit_transform /\ n = 0)
  /\ outcome (main SVR (Some t)) = Raise (ValueError scaler_X_fit_transform)
  /\ exit_status (main SVR (Some t)) = 1%Z.
Proof.
  intros Hdeg.
  assert (Hempty : X_train (parts (prepared_of t)) = []).
  { destruct Hdeg as [H|H]; [exact H | now apply empty_test_is_empty_train]. }
  pose proof (main_run SVR t) as Hrun.
  rewrite (run_model_empty_train SVR t _ Hempty) in Hrun.
  cbn [trace outcome fst snd] in Hrun.
  split; [apply outcome_preprocess|]. split; [exact Hempty|].
  rewrite Hrun. cbn [trace outcome fst snd]. unfold exit_status.
  cbn [outcome snd]. repeat split.
  - apply preprocess_prints.
  - destruct H as [H|H]; [discriminate|].
    apply in_app_or in H as [H|[H|[]]].
    + apply preprocess_prints in H as [l Hl]. discriminate.
    + now inversion H.
  - destruct H as [H|H]; [discriminate|].
    apply in_app_or in H as [H|[H|[]]].
    + apply preprocess_prints in H as [l Hl]. discriminate.
    + now inversion H.
Qed.

(** The run on 25 rows: one sample, an empty training set. *)
Lemma empty_partition_fails_in_scaler_witness :
  (X_train (parts (prepared_of table_25)) = []
   \/ X_test (parts (prepared_of table_25)) = [])
  /\ trace (main null_svr (Some table_25))
     = Print (Text "Dataset loaded successfully.")
         :: trace (preprocess table_25) ++ [Call scaler_X_fit_transform 0]
  /\ outcome (main null_svr (Some table_25))
     = Raise (ValueError scaler_X_fit_transform).
Proof.
  assert (H : X_train (parts (prepared_of table_25)) = []
              \/ X_test (parts (prepared_of table_25)) = [])
    by (left; vm_compute; reflexivity).
  split; [exact H|].
  destruct (empty_partition_fails_in_scaler null_svr table_25 H)
    as (_ & _ & Htrace & _ & _ & Hout & _).
  split; [exact Htrace | exact Hout].
Defined.

(** C2 as stated fails: with 25 rows the training set is empty, the first
    scaler is called on it and the run ends in the library's ValueError. *)
Lemma empty_training_set_reaches_scaler :
  X_train (parts (prepared_of table_25)) = []
  /\ In (Call scaler_X_fit_transform 0) (trace (main null_svr (Some table_25)))
  /\ outcome (main null_svr (Some table_25))
     = Raise (ValueError scaler_X_fit_transform)
  /\ ~ no_call_on_empty (main null_svr (Some table_25)).
Proof.
  assert (Hin : In (Call scaler_X_fit_transform 0)
                   (trace (main null_svr (Some table_25))))
    by (vm_compute; tauto).
  split; [vm_compute; reflexivity|].
  split; [exact Hin|].
  split; [vm_compute; reflexivity|].
  intros [Hno _]. exact (Hno _ Hin).
Qed.

(** *** The two test indexes *)

Lemma run_with_nan_fails {A : Type} (p : partition (option Q)) (a : A) :
  outcome (run_with_nan p) <> Ok a.
Proof.
  unfold run_with_nan, require_samples.
  destruct (X_train p), (X_test p), (y_train p), (y_test p);
    cbn [bind emit print raise ret outcome snd]; try discriminate.
  destruct (has_nan _ || existsb isnan _);
    cbn [bind emit print raise ret outcome snd]; try discriminate.
  destruct (has_nan _); cbn [bind emit print raise ret outcome snd];
    discriminate.
Qed.

(** What a completed run has bound. *)
Lemma main_completed (SVR : Estimator) (t : DataFrame) (g : globals) :
  outcome (main SVR (Some t)) = Ok g ->
  prep g = prepared_of t
  /\ finite_partition (parts (prepared_of t)) = Some (floats g)
  /\ test_index_95 g
     = test_index_first (index (df (prep g))) (len (data (prep g)))
                        (boundary (prep g)) (List.length (y_test (floats g)))
  /\ test_index g
     = test_index_second (index (df (prep g)))
                         (List.length (X_train (floats g)))
                         (List.length (y_test (floats g))).
Proof.
  rewrite main_run. cbn [outcome snd]. unfold run_model.
  destruct (finite_partition (parts (prepared_of t))) as [p|];
    [|intros H; now apply run_with_nan_fails in H].
  rewrite outcome_bind. destruct (outcome (scale p)) as [s| |]; try discriminate.
  rewrite outcome_bind.
  destruct (outcome (fit_predict SVR p s)) as [pr| |]; try discriminate.
  rewrite outcome_bind.
  destruct (outcome (evaluate (y_test p) pr)) as [m| |]; try discriminate.
  do 8 (rewrite outcome_bind; cbn [emit print outcome snd]).
  rewrite outcome_bind.
  destruct (outcome (analyze_town_performance _ _ _ _ _)) as [tm| |];
    try discriminate.
  cbn [ret outcome snd]. intros H. injection H as <-.
  cbn [prep floats test_index_95 test_index]. repeat split.
Qed.

Lemma all_finite_length {A : Type} (l : list (option A)) : forall l',
  all_finite l = Some l' -> List.length l' = List.length l.
Proof.
  induction l as [|[v|] l IH]; intros l' H; cbn in H.
  - now injection H as <-.
  - destruct (all_finite l) as [r|]; [|discriminate].
    injection H as <-. cbn. f_equal. now apply IH.
  - discriminate.
Qed.

Lemma finite_partition_lengths (p : partition (option Q)) (q : partition Q) :
  finite_partition p = Some q ->
  List.length (X_train q) = List.length (X_train p)
  /\ List.length (y_test q) = List.length (y_test p).
Proof.
  unfold finite_partition.
  destruct (all_finite (map all_finite (X_train p))) as [xtr|] eqn:Hxtr;
    [|discriminate].
  destruct (all_finite (map all_finite (X_test p))) as [xte|]; [|discriminate].
  destruct (all_finite (y_train p)) as [ytr|]; [|discriminate].
  destruct (all_finite (y_test p)) as [yte|] eqn:Hyte; [|discriminate].
  intros H. injection H as <-. cbn [X_train y_test]. split.
  - apply all_finite_length in Hxtr. now rewrite length_map in Hxtr.
  - now apply all_finite_length in Hyte.
Qed.

(** *** The date index is sorted *)

Lemma insert_row_sorted (r : row) (l : list row) :
  Sorted not_later l -> Sorted not_later (insert_row r l).
Proof.
  induction l as [|h l IH]; intros Hs; cbn.
  - repeat constructor.
  - destruct (Z.leb_spec (date r) (date h)) as [Hle|Hgt].
    + constructor; [exact Hs|]. constructor. exact Hle.
    + inversion Hs as [|? ? Hl Hhd]; subst.
      constructor; [now apply IH|].
      destruct l as [|h' l]; cbn.
      * constructor. unfold not_later. lia.
      * destruct (Z.leb_spec (date r) (date h')).
        -- constructor. unfold not_later. lia.
        -- constructor. now inversion Hhd.
Qed.

Lemma sort_index_sorted (l : list row) : Sorted not_later (sort_index l).
Proof.
  unfold sort_index. induction l as [|r l IH]; cbn [fold_right].
  - constructor.
  - now apply insert_row_sorted.
Qed.

Lemma index_sorted (l : list row) :
  Sorted not_later l -> Sorted Z.le (index l).
Proof.
  unfold index. induction 1 as [|r l Hl IH Hhd]; cbn [map].
  - constructor.
  - constructor; [exact IH|].
    destruct Hhd; cbn [map]; constructor. assumption.
Qed.

Lemma Sorted_le_nth (l : list Z) :
  Sorted Z.le l ->
  forall i j x y, i <= j ->
    nth_error l i = Some x -> nth_error l j = Some y -> (x <= y)%Z.
Proof.
  intros Hs. apply Sorted_StronglySorted in Hs;
    [|intros x y z; apply Z.le_trans].
  induction Hs as [|a l Hl IH Ha]; intros i j x y Hij Hi Hj.
  - destruct i; discriminate.
  - destruct i as [|i], j as [|j]; cbn [nth_error] in Hi, Hj; try lia.
    + injection Hi as <-. injection Hj as <-. lia.
    + injection Hi as <-. rewrite Forall_forall in Ha.
      apply Ha. eapply nth_error_In. exact Hj.
    + apply (IH i j); [lia | assumption | assumption].
Qed.

(** Two slices of one length that start at different places of a list
    without repeated elements differ, when they are not empty and the
    later one fits in the list. *)
Lemma slices_differ (idx : list Z) (a d k : nat) :
  NoDup idx -> 0 < k -> a + d + k <= List.length idx ->
  slice idx (a + d) (a + d + k) = slice idx a (a + k) -> d = 0.
Proof.
  intros Hnd Hk Hfit Heq.
  assert (H0 : nth_error (slice idx (a + d) (a + d + k)) 0
               = nth_error (slice idx a (a + k)) 0) by now rewrite Heq.
  rewrite !nth_error_slice in H0 by lia.
  rewrite !Nat.add_0_r in H0.
  rewrite NoDup_nth_error in Hnd. apply Hnd in H0; lia.
Qed.

(** In a sorted list, two non-empty slices of one length, [d] places
    apart, are equal exactly when [d = 0] or all the elements from the
    start of the earlier slice to the end of the later one are equal. *)
Lemma shifted_slices (idx : list Z) (a d k : nat) :
  Sorted Z.le idx -> 0 < k -> a + d + k <= List.length idx ->
  (slice idx (a + d) (a + d + k) = slice idx a (a + k)
   <-> d = 0 \/ exists v, Forall (eq v) (slice idx a (a + d + k))).
Proof.
  intros Hs Hk Hfit. split.
  - intros Heq. destruct d as [|d']; [now left | right].
    set (d := S d') in *.
    assert (Hshift : forall j, j < k ->
              nth_error idx (a + d + j) = nth_error idx (a + j)).
    { intros j Hj.
      rewrite <- (@nth_error_slice _ idx (a + d) (a + d + k) j) by lia.
      rewrite <- (@nth_error_slice _ idx a (a + k) j) by lia.
      now rewrite Heq. }
    destruct (nth_error idx a) as [v|] eqn:Hv;
      [|apply nth_error_None in Hv; lia].
    exists v. apply Forall_forall. intros x Hx.
    apply In_nth_error in Hx as [m Hm].
    assert (Hlt : m < d + k).
    { assert (Hsome : nth_error (slice idx a (a + d + k)) m <> None)
        by congruence.
      apply nth_error_Some in Hsome. rewrite slice_length in Hsome. lia. }
    rewrite nth_error_slice in Hm by lia.
    revert x Hlt Hm. induction m as [m IH] using lt_wf_ind. intros x Hlt Hm.
    destruct (Nat.le_gt_cases m d) as [Hle|Hgt].
    + assert (Hd : nth_error idx (a + d) = Some v).
      { specialize (Hshift 0 Hk). rewrite !Nat.add_0_r in Hshift.
        now rewrite Hshift. }
      pose proof (@Sorted_le_nth idx Hs a (a + m) v x ltac:(lia) Hv Hm).
      pose proof (@Sorted_le_nth idx Hs (a + m) (a + d) x v ltac:(lia) Hm Hd).
      lia.
    + assert (Hj : m - d < k) by lia.
      specialize (Hshift (m - d) Hj).
      replace (a + d + (m - d)) with (a + m) in Hshift by lia.
      rewrite Hshift in Hm. apply (IH (m - d)); [lia | lia | exact Hm].
  - intros [->|[v Hall]]; [now rewrite !Nat.add_0_r|].
    rewrite Forall_forall in Hall.
    assert (Hspan : forall m, m < d + k -> nth_error idx (a + m) = Some v).
    { intros m Hm.
      destruct (nth_error idx (a + m)) as [x|] eqn:Hx;
        [|apply nth_error_None in Hx; lia].
      f_equal. symmetry. apply Hall.
      apply (@nth_error_In _ _ m).
      rewrite nth_error_slice by lia. exact Hx. }
    apply nth_error_ext. intros n.
    destruct (Nat.lt_ge_cases n k) as [Hn|Hn].
    + rewrite !nth_error_slice by lia.
      rewrite (Hspan n) by lia.
      replace (a + d + n) with (a + (d + n)) by lia.
      now rewrite (Hspan (d + n)) by lia.
    + transitivity (@None Z); [|symmetry];
        apply nth_error_None; rewrite slice_length; lia.
Qed.

(** C1. In every run that completes, with a non-empty test set, the test
    index of line 95 and the test index of line 203 are the same slice of
    df.index when the tail-truncation offset len(df) - len(data) is zero.
    As df.index is sorted, they are equal exactly when the offset is zero
    or all the timestamps from the start of the slice of line 203 to the
    end of the slice of line 95 are one and the same.  So when no
    timestamp occurs twice among those, in particular when the timestamps
    of df.index are unique, as the data model has them, the two test
    indexes are equal exactly when the offset is zero. *)
Theorem test_index_agreement (SVR : Estimator) (t : DataFrame) (g : globals) :
  outcome (main SVR (Some t)) = Ok g ->
  y_test (floats g) <> [] ->
  let idx := index (df (prep g)) in
  let offset := tail_offset (prep g) in
  let start := N_LAGS + List.length (X_train (floats g)) in
  let span :=
    slice idx start (start + offset + List.length (y_test (floats g))) in
  (offset = 0 -> test_index_95 g = test_index g)
  /\ (test_index_95 g = test_index g
      <-> offset = 0 \/ exists d, Forall (eq d) span)
  /\ (NoDup span -> (test_index_95 g = test_index g <-> offset = 0))
  /\ (NoDup idx -> (test_index_95 g = test_index g <-> offset = 0)).
Proof.
  intros Hrun Htest.
  destruct (main_completed SVR t Hrun) as (Hprep & Hfin & H95 & H203).
  destruct (finite_partition_lengths _ Hfin) as [Hltr Hlte].
  destruct (prepared_sizes t) as (HN & Hdata & _ & Hb & Htr & _ & _ & Hte).
  rewrite <- Hprep in HN, Hdata, Hb.
  rewrite Htr in Hltr. rewrite Hte in Hlte.
  assert (Hk : 0 < List.length (y_test (floats g))).
  { destruct (y_test (floats g)); [congruence | cbn; lia]. }
  assert (Hsorted : Sorted Z.le (index (df (prep g)))).
  { rewrite Hprep. unfold prepared_of. cbn [df].
    apply index_sorted, sort_index_sorted. }
  set (N := List.length (rows t)) in *.
  set (M := Nat.min tail_size N - n_lags) in *.
  set (b := floor_80_percent M) in *.
  assert (Hoff : tail_offset (prep g) = N - Nat.min tail_size N).
  { unfold tail_offset. rewrite Hdata. f_equal.
    unfold index in HN. now rewrite length_map in HN. }
  assert (Hshape : test_index_95 g
                   = slice (index (df (prep g)))
                       (N_LAGS + b + tail_offset (prep g))
                       (N_LAGS + b + tail_offset (prep g)
                        + List.length (y_test (floats g)))
                   /\ test_index g
                      = slice (index (df (prep g))) (N_LAGS + b)
                          (N_LAGS + b + List.length (y_test (floats g)))).
  { rewrite H95, H203. unfold test_index_first, test_index_second,
      test_index_start. rewrite HN, Hdata, Hb, Hltr, Hoff.
    change N_LAGS with n_lags. split; [|reflexivity].
    f_equal; lia. }
  destruct Hshape as [-> ->]. cbn zeta. rewrite Hltr.
  assert (Hfit : N_LAGS + b + tail_offset (prep g)
                 + List.length (y_test (floats g))
                 <= List.length (index (df (prep g)))).
  { rewrite HN, Hoff, Hlte. unfold N_LAGS, n_lags in *.
    pose proof (floor_80_percent_le M). lia. }
  pose proof (@shifted_slices (index (df (prep g))) (N_LAGS + b)
                (tail_offset (prep g)) (List.length (y_test (floats g)))
                Hsorted Hk Hfit) as Hiff.
  split; [intros H0; apply Hiff; now left|].
  split; [exact Hiff|]. split.
  - intros Hnd. split; [|intros H0; apply Hiff; now left].
    intros Heq. apply Hiff in Heq as [H0|[d Hall]]; [exact H0|].
    destruct (tail_offset (prep g)) as [|o] eqn:Ho; [reflexivity | exfalso].
    pose proof (slice_length (index (df (prep g))) (N_LAGS + b)
                  (N_LAGS + b + S o + List.length (y_test (floats g))))
      as Hlen.
    remember (slice (index (df (prep g))) (N_LAGS + b)
                (N_LAGS + b + S o + List.length (y_test (floats g))))
      as sp eqn:Hsp.
    clear Hsp. destruct sp as [|x [|y rest]];
      cbn [List.length] in Hlen; try lia.
    apply Forall_cons_iff in Hall as [Hx Hrest].
    apply Forall_cons_iff in Hrest as [Hy _].
    apply NoDup_cons_iff in Hnd as [Hnotin _].
    apply Hnotin. left. congruence.
  - intros Hnd. split; [|intros H0; apply Hiff; now left].
    now apply (@slices_differ (index (df (prep g))) (N_LAGS + b)
                 (tail_offset (prep g)) (List.length (y_test (floats g)))
                 Hnd Hk).
Qed.

(** The run on 27 hourly rows: three samples, one of them for testing. *)
Lemma test_index_agreement_witness :
  exists g,
    outcome (main null_svr (Some table_27)) = Ok g
    /\ y_test (floats g) <> []
    /\ NoDup (index (df (prep g)))
    /\ tail_offset (prep g) = 0
    /\ test_index_95 g = test_index g.
Proof.
  assert (Hex : exists g,
             outcome (main null_svr (Some table_27)) = Ok g
             /\ y_test (floats g) <> []
             /\ NoDup (index (df (prep g)))
             /\ tail_offset (prep g) = 0).
  { eexists. split; [lazy; reflexivity|].
    split; [cbn [y_test floats]; discriminate|].
    split; [|vm_compute; reflexivity].
    vm_compute.
    repeat (constructor; [intros H; cbn in H; intuition discriminate|]).
    constructor. }
  destruct Hex as (g & Hrun & Htest & Hnd & Hoff).
  exists g. repeat (split; [assumption|]).
  exact (proj1 (test_index_agreement null_svr table_27 Hrun Htest) Hoff).
Defined.

(** ** MAPE, guarded and by town *)

Section PercentageError.
Variable d : Q -> Q.



End PercentageError.









(** ** Runs that complete *)

Section ValidSeries.
Context {A : Type}.
Implicit Types s : list (option A).

Lemma Forall_skipn_keeps (P : A -> Prop) (n : nat) (l : list A) :
  Forall P l -> Forall P (skipn n l).
Proof.
  intros H. rewrite <- (firstn_skipn n l) in H.
  now apply Forall_app in H.
Qed.

Lemma Forall_firstn_keeps (P : A -> Prop) (n : nat) (l : list A) :
  Forall P l -> Forall P (firstn n l).
Proof.
  intros H. rewrite <- (firstn_skipn n l) in H.
  now apply Forall_app in H.
Qed.

Lemma ffill_from_valid_id s : Forall notnull s ->
  forall last, ffill_from last s = s.
Proof.
  induction 1 as [|[v|] s Hx Hs IH]; intros last; cbn; [reflexivity| |].
  - now rewrite IH.
  - now elim Hx.
Qed.

Lemma all_finite_valid s :
  Forall notnull s -> exists l, all_finite s = Some l.
Proof.
  induction 1 as [|[v|] s Hx Hs [l IH]]; cbn.
  - eauto.
  - rewrite IH. cbn. eauto.
  - now elim Hx.
Qed.
End ValidSeries.

Lemma all_finite_matrix_valid (w : nat) (X : list (list (option Q))) :
  Forall (Forall notnull) X -> Forall (fun r => List.length r = w) X ->
  exists X', all_finite (map all_finite X) = Some X'
             /\ List.length X' = List.length X /\ rectangular w X'.
Proof.
  induction X as [|r X IH]; intros Hv Hw.
  - exists []. cbn. repeat split. constructor.
  - inversion Hv as [|? ? Hr HX]; inversion Hw as [|? ? Hlen HwX]; subst.
    destruct (IH HX HwX) as (X' & HX' & HlenX' & Hrect).
    destruct (all_finite_valid Hr) as [r' Hr'].
    exists (r' :: X'). cbn [map all_finite]. rewrite Hr', HX'. cbn.
    repeat split; [now rewrite HlenX'|].
    constructor; [|exact Hrect]. now apply all_finite_length in Hr'.
Qed.

Lemma sort_index_Forall (P : row -> Prop) (l : list row) :
  Forall P l -> Forall P (sort_index l).
Proof.
  assert (Hins : forall r s, P r -> Forall P s -> Forall P (insert_row r s)).
  { intros r s Hr Hs. induction Hs as [|h s Hh Hs IH]; cbn.
    - now constructor.
    - destruct (date r <=? date h)%Z; repeat constructor; auto. }
  unfold sort_index. induction 1; cbn [fold_right]; [constructor | auto].
Qed.

Lemma imputed_valid (data : frame) (c : column) :
  Forall notnull (data c) -> imputed data c = data c.
Proof.
  intros Hv. unfold imputed, ffill_bfill, ffill.
  destruct (0 <? isnull_sum_sum data); [|reflexivity].
  now rewrite ffill_from_valid_id, bfill_valid.
Qed.

(** With a reading in every row the irradiance series has no NaN. *)
Lemma irradiance_valid (t : DataFrame) :
  valid_irradiance t -> Forall notnull (data (prepared_of t) irradiance).
Proof.
  intros Hv. unfold prepared_of. cbn [data].
  assert (Hsel : Forall notnull (select (sort_index (rows t)) irradiance)).
  { unfold select. apply Forall_map. now apply sort_index_Forall. }
  rewrite imputed_valid by exact Hsel.
  unfold tail. now apply Forall_skipn_keeps.
Qed.

Lemma windows_valid (s : list (option Q)) :
  Forall notnull s ->
  Forall (Forall notnull) (map (window s) (range n_lags (List.length s)))
  /\ Forall (fun r => List.length r = n_lags)
            (map (window s) (range n_lags (List.length s))).
Proof.
  intros Hv. split; apply Forall_map, Forall_forall; intros i Hi.
  - unfold window, slice. now apply Forall_firstn_keeps, Forall_skipn_keeps.
  - unfold range in Hi. apply in_seq in Hi.
    unfold window. rewrite slice_length. lia.
Qed.

(** The arrays of a run on valid readings and at least 26 rows are free of
    NaN and well shaped. *)
Lemma finite_partition_valid (t : DataFrame) :
  valid_irradiance t -> n_lags + 2 <= List.length (rows t) ->
  exists p, finite_partition (parts (prepared_of t)) = Some p
            /\ well_shaped n_lags p
            /\ List.length (y_test p) = List.length (X_test p).
Proof.
  intros Hv HN.
  pose proof (irradiance_valid Hv) as Hs.
  destruct (prepared_sizes t) as (_ & _ & _ & _ & Hltr & Hlte & Hlytr & Hlyte).
  cbv zeta in *.
  set (M := Nat.min tail_size (List.length (rows t)) - n_lags) in *.
  assert (HM : 2 <= M) by (unfold M, tail_size, n_lags in *; lia).
  pose proof (floor_80_percent_pos HM) as Hb0.
  pose proof (@floor_80_percent_lt M ltac:(lia)) as HbM.
  revert Hltr Hlte Hlytr Hlyte.
  unfold prepared_of in *. cbn [data parts X_train X_test y_train y_test] in *.
  set (s := tail tail_size _) in *.
  destruct (windows_valid Hs) as [HXv HXw].
  set (Xs := map (window s) _) in *.
  set (b := floor_80_percent (List.length Xs)).
  intros Hltr Hlte Hlytr Hlyte.
  destruct (@all_finite_matrix_valid n_lags (firstn b Xs))
    as (xtr & Hxtr & Hlxtr & Hrtr);
    [now apply Forall_firstn_keeps | now apply Forall_firstn_keeps|].
  destruct (@all_finite_matrix_valid n_lags (skipn b Xs))
    as (xte & Hxte & Hlxte & Hrte);
    [now apply Forall_skipn_keeps | now apply Forall_skipn_keeps|].
  destruct (@all_finite_valid _ (firstn b (skipn n_lags s))) as [ytr Hytr];
    [now apply Forall_firstn_keeps, Forall_skipn_keeps|].
  destruct (@all_finite_valid _ (skipn b (skipn n_lags s))) as [yte Hyte];
    [now do 2 apply Forall_skipn_keeps|].
  exists {| X_train := xtr; X_test := xte; y_train := ytr; y_test := yte |}.
  unfold finite_partition. cbn [X_train X_test y_train y_test].
  rewrite Hxtr, Hxte, Hytr, Hyte. split; [reflexivity|].
  apply all_finite_length in Hytr, Hyte.
  fold b in Hltr, Hlte, Hlytr, Hlyte.
  assert (Hnil : forall (B : Type) (l : list B), 0 < List.length l -> l <> [])
    by (intros B [|x l] H; [cbn in H; lia | discriminate]).
  split; [constructor; cbn [X_train X_test y_train y_test]; auto|].
  - apply Hnil. lia.
  - apply Hnil. lia.
  - apply Hnil. lia.
  - apply Hnil. lia.
  - cbn [X_test y_test]. lia.
Qed.

Lemma fitted_on_labels (y_train : list Q) :
  y_train <> [] ->
  exists mn mx,
    fitted_on (reshape_column y_train) = {| data_min_ := [mn]; data_max_ := [mx] |}.
Proof.
  intros Hne.
  destruct (fit_labels scaler_y_fit_transform Hne) as (mn & mx & Hfit & _).
  rewrite (fit_nonempty _ (reshape_column_nonempty Hne)) in Hfit.
  exists mn, mx. unfold fitted_on in *. congruence.
Qed.

Lemma inverse_transform_labels (c : call) (mn mx : Q) (ps : list Q) :
  ps <> [] ->
  exists inv,
    inverse_transform c {| data_min_ := [mn]; data_max_ := [mx] |}
                      (reshape_column ps) = Ok inv
    /\ List.length (flatten inv) = List.length ps.
Proof.
  intros Hne. eexists. split.
  - unfold inverse_transform.
    assert (Hok : n_features_ok {| data_min_ := [mn]; data_max_ := [mx] |}
                                (reshape_column ps) = true).
    { apply n_features_ok_rectangular. apply reshape_column_rectangular. }
    rewrite Hok. destruct ps; [congruence | reflexivity].
  - unfold flatten, reshape_column. clear Hne.
    induction ps as [|v ps IH]; cbn [map concat]; [reflexivity|].
    rewrite length_app, IH. reflexivity.
Qed.

Lemma outcome_fit_predict (SVR : Estimator) (p : partition Q) :
  predicts_per_sample SVR -> well_shaped n_lags p ->
  exists predictions,
    outcome (fit_predict SVR p (scaled_of p)) = Ok predictions
    /\ List.length predictions = List.length (X_test p).
Proof.
  intros Hpred Hws. unfold fit_predict.
  do 5 (rewrite outcome_bind; cbn [print emit outcome snd]).
  set (ps := svr_predict SVR _ _).
  assert (Hlen : List.length ps = List.length (X_test p)).
  { unfold ps. rewrite Hpred. unfold scaled_of. cbn [X_test_scaled].
    apply length_map. }
  assert (Hne : ps <> []).
  { destruct Hws as [_ Hte _ _ _ _]. destruct ps; [|discriminate].
    destruct (X_test p); [congruence | discriminate]. }
  destruct (fitted_on_labels (train_labels Hws)) as (mn & mx & Hsy).
  destruct (inverse_transform_labels scaler_y_inverse_transform mn mx Hne)
    as (inv & Hinv & Hlinv).
  rewrite outcome_bind. unfold lift. cbn [outcome snd].
  unfold scaled_of at 1. cbn [scaler_y]. rewrite Hsy, Hinv.
  cbn [ret outcome snd]. exists (flatten inv). split; [reflexivity|].
  now rewrite Hlinv.
Qed.

(** A run completes when the file exists without a town column, every row
    has an irradiance reading, there are at least 26 rows and the
    estimator returns one prediction per sample. *)
Lemma main_completes (SVR : Estimator) (t : DataFrame) :
  predicts_per_sample SVR -> has_town t = false ->
  valid_irradiance t -> n_lags + 2 <= List.length (rows t) ->
  exists g, outcome (main SVR (Some t)) = Ok g.
Proof.
  intros Hpred Htown Hv HN.
  destruct (finite_partition_valid Hv HN) as (p & Hfin & Hws & Hlen).
  destruct (outcome_fit_predict Hpred Hws) as (pr & Hpr & Hlpr).
  rewrite main_run. cbn [outcome snd]. unfold run_model. rewrite Hfin.
  rewrite outcome_bind, (outcome_scale Hws).
  rewrite outcome_bind, Hpr.
  rewrite outcome_bind, outcome_evaluate;
    [|exact (test_labels Hws) | now rewrite Hlpr, Hlen].
  do 8 (rewrite outcome_bind; cbn [emit print outcome snd]).
  rewrite outcome_bind. unfold analyze_town_performance. rewrite Htown.
  cbn [negb bind print emit ret outcome snd]. eauto.
Qed.

Lemma slice_repeat {A : Type} (x : A) (n a k : nat) :
  a + k <= n -> slice (repeat x n) a (a + k) = repeat x k.
Proof.
  intros Hfit. unfold slice.
  replace n with (a + (k + (n - a - k))) by lia.
  rewrite !repeat_app, skipn_app, skipn_all2 by (rewrite repeat_length; lia).
  rewrite repeat_length, Nat.sub_diag. cbn [skipn app].
  replace (a + k - a) with k by lia.
  rewrite firstn_app, firstn_all2 by (rewrite repeat_length; lia).
  rewrite repeat_length, Nat.sub_diag. cbn [firstn]. apply app_nil_r.
Qed.

Lemma index_one_date (l : list row) :
  Forall (fun r => date r = 0%Z) l ->
  index l = repeat 0%Z (List.length l).
Proof.
  unfold index. induction 1 as [|r l Hr Hl IH]; cbn; [reflexivity|].
  now rewrite Hr, IH.
Qed.

(** Repeated timestamps.  When the file does not have the unique
    timestamps of the data model, the two test indexes can be equal with
    a non-zero offset: for 10001 rows that carry one date the run
    completes with a non-empty test set and offset 1, and the two test
    indexes are equal. *)
Lemma test_indexes_agree_with_offset :
  exists g,
    outcome (main null_svr (Some table_one_date)) = Ok g
    /\ y_test (floats g) <> []
    /\ tail_offset (prep g) = 1
    /\ test_index_95 g = test_index g.
Proof.
  assert (Hrows : List.length (rows table_one_date) = S tail_size).
  { cbn [rows table_one_date]. now rewrite length_map, length_seq. }
  assert (Hall : Forall (fun r => date r = 0%Z /\ value r irradiance <> None)
                        (rows table_one_date)).
  { cbn [rows table_one_date]. apply Forall_map, Forall_forall.
    intros i _. cbn. split; [reflexivity | discriminate]. }
  destruct (@main_completes null_svr table_one_date) as [g Hg].
  - intros m X0. apply length_map.
  - reflexivity.
  - eapply Forall_impl; [|exact Hall]. now intros r [_ H].
  - rewrite Hrows. unfold tail_size, n_lags. lia.
  - exists g. split; [exact Hg|].
    destruct (main_completed null_svr table_one_date Hg)
      as (Hprep & Hfin & H95 & H203).
    destruct (finite_partition_lengths _ Hfin) as [Hltr Hlte].
    destruct (prepared_sizes table_one_date)
      as (HN & Hdata & _ & Hb & Htr & _ & _ & Hte).
    cbv zeta in *. rewrite Hrows in *. rewrite <- Hprep in HN, Hdata, Hb.
    rewrite Htr in Hltr. rewrite Hte in Hlte.
    assert (HM : Nat.min tail_size (S tail_size) - n_lags = Z.to_nat 9976)
      by (unfold tail_size, n_lags; lia).
    rewrite HM in *.
    assert (Hfl : floor_80_percent (Z.to_nat 9976) = Z.to_nat 7980)
      by (rewrite floor_80_percent_spec; vm_compute; reflexivity).
    rewrite Hfl in *.
    assert (Hidx : index (df (prep g)) = repeat 0%Z (S tail_size)).
    { rewrite Hprep. unfold prepared_of. cbn [df].
      rewrite index_one_date, sort_index_length, Hrows; [reflexivity|].
      apply sort_index_Forall. eapply Forall_impl; [|exact Hall].
      now intros r [H _]. }
    assert (Hoff : tail_offset (prep g) = 1).
    { unfold tail_offset. rewrite Hdata.
      unfold index in HN. rewrite length_map in HN. rewrite HN.
      unfold tail_size. lia. }
    split.
    { intros Hnil. rewrite Hnil in Hlte. cbn [List.length] in Hlte. lia. }
    split; [exact Hoff|].
    rewrite H95, H203. unfold test_index_first, test_index_second,
      test_index_start. rewrite Hidx, Hdata, Hb, Hltr, Hlte, repeat_length.
    rewrite !slice_repeat; [reflexivity | |];
      unfold N_LAGS, n_lags, tail_size; lia.
Qed.

(* ===================================================================== *)
(** * Further properties of the script *)
(* ===================================================================== *)

(** ** Sorting and filling *)

Lemma insert_row_permutation (r : row) (l : list row) :
  Permutation (insert_row r l) (r :: l).
Proof.
  induction l as [|h l IH]; cbn; [reflexivity|].
  destruct (date r <=? date h)%Z; [reflexivity|].
  rewrite IH. apply perm_swap.
Qed.

Lemma sort_index_permutation (l : list row) : Permutation (sort_index l) l.
Proof.
  unfold sort_index. induction l as [|r l IH]; cbn [fold_right];
    [reflexivity|].
  rewrite insert_row_permutation. now constructor.
Qed.

(** X3. In every run the table the pipeline works on holds the rows of
    the file, each once, in non-decreasing date order; so [df.index] is
    non-decreasing. *)
Theorem sorted_table (t : DataFrame) :
  exists pre,
    outcome (preprocess t) = Ok pre
    /\ Permutation (df pre) (rows t)
    /\ Sorted not_later (df pre)
    /\ Sorted Z.le (index (df pre)).
Proof.
  exists (prepared_of t). split; [apply outcome_preprocess|].
  unfold prepared_of. cbn [df].
  split; [apply sort_index_permutation|].
  split; [apply sort_index_sorted | apply index_sorted, sort_index_sorted].
Qed.

Section FillInvariants.
Context {A : Type}.
Implicit Types s : list (option A).

Lemma ffill_from_keeps s : forall last i v,
  nth_error s i = Some (Some v) ->
  nth_error (ffill_from last s) i = Some (Some v).
Proof.
  induction s as [|[w|] s IH]; intros last [|i] v H; cbn in *;
    try discriminate; auto.
Qed.

Lemma bfill_leading_value (v : A) (k : nat) s :
  bfill (repeat None k ++ Some v :: s)
  = repeat (Some v) k ++ Some v :: bfill s.
Proof.
  induction k as [|k IH]; cbn [repeat app bfill]; [reflexivity|].
  rewrite IH. f_equal. now destruct k.
Qed.

Lemma ffill_leading (v : A) (k : nat) s :
  ffill (repeat None k ++ Some v :: s)
  = repeat None k ++ Some v :: ffill_from (Some v) s.
Proof.
  unfold ffill. induction k as [|k IH]; cbn [repeat app ffill_from];
    [reflexivity | now rewrite IH].
Qed.

Lemma fill_all_missing s : Forall (eq None) s -> bfill (ffill s) = s.
Proof.
  unfold ffill. induction 1 as [|x s Hx Hs IH]; [reflexivity|].
  subst x. cbn [ffill_from bfill]. rewrite IH.
  f_equal. destruct Hs as [|y s Hy Hs]; [reflexivity | now subst y].
Qed.
End FillInvariants.

(** X8. [ffill().bfill()] on a column keeps its length and every valid
    value in place; a leading run of missing values takes the first valid
    value of the column; a column with no valid value at all is returned
    unchanged, still entirely missing. *)
Theorem fill_invariants (A : Type) (s : list (option A)) :
  List.length (bfill (ffill s)) = List.length s
  /\ (forall i v, nth_error s i = Some (Some v) ->
      nth_error (bfill (ffill s)) i = Some (Some v))
  /\ (forall k v rest, s = repeat None k ++ Some v :: rest ->
      forall i, i <= k -> nth_error (bfill (ffill s)) i = Some (Some v))
  /\ (Forall (eq None) s -> bfill (ffill s) = s).
Proof.
  split; [unfold ffill; now rewrite bfill_length, ffill_from_length|].
  split; [intros i v H; now apply bfill_keeps, ffill_from_keeps|].
  split; [|apply fill_all_missing].
  intros k v rest -> i Hi. rewrite ffill_leading, bfill_leading_value.
  destruct (Nat.eq_dec i k) as [->|Hne].
  - rewrite nth_error_app2 by (rewrite repeat_length; lia).
    rewrite repeat_length, Nat.sub_diag. reflexivity.
  - rewrite nth_error_app1 by (rewrite repeat_length; lia).
    apply nth_error_repeat. lia.
Qed.

(** ** Sizes of a run *)

(** X2. The sizes of every run follow from the number N of rows of the
    file: [data] keeps min(N, 10000) rows, the loop builds
    M = max(min(N, 10000) - 24, 0) samples (never more than 9976), the
    training arrays hold floor(4M/5) of them and the test arrays the
    others.  The training arrays are non-empty exactly from 26 rows on and
    the test arrays exactly from 25 rows on. *)
Theorem partition_sizes (t : DataFrame) :
  exists pre,
    outcome (preprocess t) = Ok pre
    /\ let N := List.length (rows t) in
       let M := Nat.min N tail_size - n_lags in
       List.length (df pre) = N
       /\ (forall c, List.length (data pre c) = Nat.min N tail_size)
       /\ List.length (X pre) = M /\ List.length (y pre) = M
       /\ M <= tail_size - n_lags
       /\ List.length (X_train (parts pre)) = 4 * M / 5
       /\ List.length (y_train (parts pre)) = 4 * M / 5
       /\ List.length (X_test (parts pre)) = M - 4 * M / 5
       /\ List.length (y_test (parts pre)) = M - 4 * M / 5
       /\ (X_train (parts pre) <> [] <-> n_lags + 2 <= N)
       /\ (X_test (parts pre) <> [] <-> n_lags + 1 <= N).
Proof.
  exists (prepared_of t). split; [apply outcome_preprocess|].
  destruct (prepared_sizes t)
    as (HN & Hdata & HX & Hb & Htr & Hte & Hytr & Hyte).
  cbv zeta in *. rewrite (Nat.min_comm (List.length (rows t))).
  set (N := List.length (rows t)) in *.
  set (M := Nat.min tail_size N - n_lags) in *.
  rewrite floor_80_percent_spec in *.
  assert (Hdiv : 4 * M / 5 <= M) by (apply Nat.Div0.div_le_upper_bound; lia).
  assert (Hnil : forall (B : Type) (l : list B),
             l <> [] <-> 0 < List.length l).
  { intros B [|x l]; cbn; split; try lia; congruence. }
  split; [unfold index in HN; now rewrite length_map in HN|].
  split.
  { intros c. unfold prepared_of. cbn [data].
    rewrite tail_length, imputed_length. unfold select.
    now rewrite length_map, sort_index_length. }
  split; [exact HX|].
  split.
  { unfold prepared_of. cbn [y]. rewrite length_skipn.
    unfold prepared_of, len in Hdata. cbn [data] in Hdata. now rewrite Hdata. }
  split; [unfold M; lia|].
  repeat (split; [assumption|]).
  split; rewrite Hnil.
  - rewrite Htr. split; intros H.
    + destruct (Nat.le_gt_cases 2 M) as [H2|H2];
        [unfold M, tail_size, n_lags in *; lia|].
      assert (4 * M / 5 = 0)
        by (apply Nat.div_small; lia). lia.
    + assert (2 <= M) by (unfold M, tail_size, n_lags in *; lia).
      apply Nat.div_str_pos. lia.
  - rewrite Hte. split; intros H.
    + unfold M, tail_size, n_lags in *. lia.
    + assert (HM : 1 <= M) by (unfold M, tail_size, n_lags in *; lia).
      assert (4 * M / 5 < M) by (apply Nat.Div0.div_lt_upper_bound; lia).
      lia.
Qed.

(** ** Windows *)

Section WindowInvariants.
Context {A : Type}.
Implicit Types s : list A.

Lemma firstn_snoc s : forall n v,
  nth_error s n = Some v -> firstn (S n) s = firstn n s ++ [v].
Proof.
  induction s as [|a s IH]; intros [|n] v H; cbn in *; try discriminate.
  - now injection H as ->.
  - f_equal. now apply IH.
Qed.

Lemma window_shift s (i : nat) (v : A) :
  n_lags <= i -> nth_error s i = Some v ->
  window s (S i) = List.tl (window s i) ++ [v].
Proof.
  intros Hi Hv. unfold window, slice.
  replace (S i - n_lags) with (S (i - n_lags)) by lia.
  replace (S i - S (i - n_lags)) with n_lags by lia.
  replace (i - (i - n_lags)) with n_lags by lia.
  destruct (nth_error s (i - n_lags)) as [a|] eqn:Ha.
  - rewrite (skipn_step _ _ Ha). unfold n_lags at 2. cbn [firstn List.tl].
    apply firstn_snoc. rewrite nth_error_skipn. rewrite <- Hv. f_equal.
    unfold n_lags in *. lia.
  - apply nth_error_None in Ha.
    assert (nth_error s i <> None) by congruence.
    apply nth_error_Some in H. lia.
Qed.
End WindowInvariants.

(** X7. The windowing loop slides by one step and loses nothing: each
    feature vector is the previous one without its first value, followed
    by the previous label; and when there is at least one sample the
    first feature vector followed by all the labels is the series itself. *)
Theorem windows_slide (A : Type) (s : list A) :
  exists X y,
    windowing s = Ok (X, y)
    /\ (forall k f v,
          nth_error X k = Some f -> nth_error y k = Some v ->
          S k < List.length X ->
          nth_error X (S k) = Some (List.tl f ++ [v]))
    /\ (forall f, nth_error X 0 = Some f -> f ++ y = s).
Proof.
  exists (map (window s) (range n_lags (List.length s))), (skipn n_lags s).
  split; [apply windowing_closed|].
  unfold range. split.
  - intros k f v Hf Hv Hk. rewrite length_map, length_seq in Hk.
    rewrite nth_error_map, nth_error_seq in *.
    destruct (Nat.ltb_spec k (List.length s - n_lags)); [|lia].
    destruct (Nat.ltb_spec (S k) (List.length s - n_lags)); [|lia].
    cbn [option_map] in *. injection Hf as <-.
    rewrite nth_error_skipn in Hv.
    replace (n_lags + S k) with (S (n_lags + k)) by lia.
    f_equal. apply window_shift; [unfold n_lags; lia | exact Hv].
  - intros f Hf. rewrite nth_error_map, nth_error_seq in Hf.
    destruct (Nat.ltb_spec 0 (List.length s - n_lags)); [|discriminate].
    cbn [option_map] in Hf. injection Hf as <-.
    match goal with
    | |- ?w ++ _ = _ => change w with (firstn n_lags s)
    end.
    apply firstn_skipn.
Qed.

(** ** Training data and test data in time *)

Lemma firstn_seq_prefix (a n k : nat) : k <= n -> firstn k (seq a n) = seq a k.
Proof.
  revert a n. induction k as [|k IH]; intros a [|n] Hk; cbn; try lia; auto.
  f_equal. apply IH. lia.
Qed.

Section PrefixWindows.
Context {A : Type}.
Implicit Types s : list A.

Lemma window_of_prefix s (m i : nat) :
  n_lags <= i -> i <= m -> window (firstn m s) i = window s i.
Proof.
  intros Hlo Hhi. unfold window, slice.
  rewrite skipn_firstn_comm, firstn_firstn. f_equal. lia.
Qed.

Lemma windowing_prefix s (b : nat) :
  b <= List.length s - n_lags ->
  windowing (firstn (n_lags + b) s)
  = Ok (firstn b (map (window s) (range n_lags (List.length s))),
        firstn b (skipn n_lags s)).
Proof.
  intros Hb. rewrite windowing_closed. unfold range.
  rewrite length_firstn, skipn_firstn_comm.
  replace (n_lags + b - n_lags) with b by lia.
  f_equal. f_equal.
  rewrite firstn_map.
  destruct (Nat.le_gt_cases n_lags (List.length s)) as [Hlen|Hlen].
  - rewrite firstn_seq_prefix by exact Hb.
    replace (Nat.min (n_lags + b) (List.length s) - n_lags) with b by lia.
    apply map_ext_in. intros i Hi. apply in_seq in Hi.
    apply window_of_prefix; lia.
  - replace b with 0 by lia.
    replace (Nat.min (n_lags + 0) (List.length s) - n_lags) with 0 by lia.
    reflexivity.
Qed.
End PrefixWindows.

(** ** Time stamps of the plotted values *)

Lemma all_finite_nth {A : Type} (l : list (option A)) : forall l' i,
  all_finite l = Some l' ->
  nth_error l i = option_map Some (nth_error l' i).
Proof.
  induction l as [|[v|] l IH]; intros l' i H; cbn in H.
  - injection H as <-. now destruct i.
  - destruct (all_finite l) as [r|] eqn:Hr; [|discriminate].
    injection H as <-. destruct i as [|i]; cbn; [reflexivity|].
    now apply IH.
  - discriminate.
Qed.

Lemma finite_partition_labels (p : partition (option Q)) (q : partition Q) :
  finite_partition p = Some q ->
  all_finite (y_train p) = Some (y_train q)
  /\ all_finite (y_test p) = Some (y_test q).
Proof.
  unfold finite_partition.
  destruct (all_finite (map all_finite (X_train p))) as [xtr|]; [|discriminate].
  destruct (all_finite (map all_finite (X_test p))) as [xte|]; [|discriminate].
  destruct (all_finite (y_train p)) as [ytr|]; [|discriminate].
  destruct (all_finite (y_test p)) as [yte|]; [|discriminate].
  intros H. injection H as <-. cbn [y_train y_test]. split; reflexivity.
Qed.

(** Where the labels of a run sit in the imputed irradiance column of the
    sorted table. *)
Lemma label_positions (t : DataFrame) :
  let pre := prepared_of t in
  let col := imputed (select (df pre)) irradiance in
  List.length col = List.length (index (df pre))
  /\ (forall k, k < boundary pre ->
      nth_error (y_train (parts pre)) k
      = nth_error col (n_lags + tail_offset pre + k))
  /\ (forall j,
      nth_error (y_test (parts pre)) j
      = nth_error col (n_lags + tail_offset pre + boundary pre + j)).
Proof.
  cbv zeta.
  destruct (prepared_sizes t) as (HN & Hdata & _).
  cbv zeta in *. unfold tail_offset. rewrite Hdata.
  unfold index in *. rewrite length_map in *. rewrite HN.
  unfold prepared_of. cbn [df data boundary parts y_train y_test].
  set (col := imputed (select (sort_index (rows t))) irradiance).
  assert (Hcol : List.length col = List.length (rows t)).
  { unfold col. rewrite imputed_length. unfold select.
    now rewrite length_map, sort_index_length. }
  split; [exact Hcol|].
  unfold tail. rewrite Hcol.
  replace (List.length (rows t) - Nat.min tail_size (List.length (rows t)))
    with (List.length (rows t) - tail_size) by lia.
  split.
  - intros k Hk. rewrite nth_error_firstn.
    destruct (Nat.ltb_spec k (floor_80_percent
      (List.length (map (window (skipn (List.length (rows t) - tail_size) col))
         (range n_lags (List.length
            (skipn (List.length (rows t) - tail_size) col)))))));
      [|lia].
    rewrite !nth_error_skipn. f_equal. lia.
  - intros j. rewrite !nth_error_skipn. f_equal. lia.
Qed.

(** X5. The time stamps the first figure uses for the training curve
    (lines 113-114) are as many as the training labels, and the k-th of
    them is the date of the row of the sorted table whose (imputed)
    irradiance is the k-th training label. *)
Theorem train_index_aligned (t : DataFrame) :
  exists pre,
    outcome (preprocess t) = Ok pre
    /\ let idx := index (df pre) in
       let col := imputed (select (df pre)) irradiance in
       let shown := actual_train_index idx (len (data pre)) (boundary pre) in
       List.length shown = List.length (y_train (parts pre))
       /\ forall k, k < List.length (y_train (parts pre)) ->
          let p := n_lags + tail_offset pre + k in
          p < List.length idx
          /\ nth_error shown k = nth_error idx p
          /\ nth_error (y_train (parts pre)) k = nth_error col p.
Proof.
  exists (prepared_of t). split; [apply outcome_preprocess|].
  destruct (prepared_sizes t) as (HN & Hdata & _ & Hb & _ & _ & Hytr & _).
  destruct (label_positions t) as (_ & Htrain & _).
  cbv zeta in *.
  set (pre := prepared_of t) in *.
  set (N := List.length (rows t)) in *.
  set (M := Nat.min tail_size N - n_lags) in *.
  pose proof (floor_80_percent_le M) as Hle.
  unfold actual_train_index, actual_train_index_start, tail_offset.
  rewrite HN, Hdata, Hb, Hytr. split.
  - rewrite slice_length, HN. unfold M in *. lia.
  - intros k Hk.
    assert (Hoff : List.length (df pre) = N)
      by (unfold index in HN; now rewrite length_map in HN).
    rewrite Hoff. split; [unfold M in *; lia|].
    split.
    + rewrite nth_error_slice by lia. f_equal; lia.
    + rewrite Htrain by (rewrite Hb; exact Hk).
      unfold tail_offset. now rewrite Hoff, Hdata.
Qed.

(** X4. In a run that completes, both test indexes have one time stamp
    per test label.  The j-th time stamp of line 95 is the date of the row
    of the sorted table whose (imputed) irradiance is the j-th test label;
    the j-th time stamp of line 203 is the date of the row that many rows
    earlier as [data.tail(10000)] dropped. *)
Theorem test_index_aligned (SVR : Estimator) (t : DataFrame) (g : globals) :
  outcome (main SVR (Some t)) = Ok g ->
  let idx := index (df (prep g)) in
  let col := imputed (select (df (prep g))) irradiance in
  List.length (test_index_95 g) = List.length (y_test (floats g))
  /\ List.length (test_index g) = List.length (y_test (floats g))
  /\ forall j v, nth_error (y_test (floats g)) j = Some v ->
     let p := n_lags + tail_offset (prep g) + boundary (prep g) + j in
     p < List.length idx
     /\ nth_error col p = Some (Some v)
     /\ nth_error (test_index_95 g) j = nth_error idx p
     /\ nth_error (test_index g) j = nth_error idx (p - tail_offset (prep g)).
Proof.
  intros Hrun. cbv zeta.
  destruct (main_completed SVR t Hrun) as (Hprep & Hfin & H95 & H203).
  destruct (finite_partition_lengths _ Hfin) as [Hltr Hlte].
  destruct (finite_partition_labels _ Hfin) as [_ Hyte].
  destruct (prepared_sizes t) as (HN & Hdata & _ & Hb & Htr & _ & _ & Hte).
  destruct (label_positions t) as (_ & _ & Htest).
  cbv zeta in *. rewrite <- Hprep in *.
  rewrite Htr in Hltr. rewrite Hte in Hlte.
  set (N := List.length (rows t)) in *.
  set (M := Nat.min tail_size N - n_lags) in *.
  pose proof (floor_80_percent_le M) as Hle.
  assert (Hoff : tail_offset (prep g) = N - Nat.min tail_size N).
  { unfold tail_offset. rewrite Hdata. f_equal.
    unfold index in HN. now rewrite length_map in HN. }
  rewrite H95, H203.
  unfold test_index_first, test_index_second, test_index_start.
  rewrite !slice_length, HN, Hdata, Hb, Hltr, Hlte, Hoff.
  change N_LAGS with n_lags.
  split; [unfold M in *; lia|]. split; [unfold M in *; lia|].
  intros j v Hv.
  assert (Hj : j < M - floor_80_percent M).
  { rewrite <- Hlte. apply nth_error_Some. congruence. }
  split; [unfold M in *; lia|].
  split.
  - rewrite Hoff, Hb in Htest.
    rewrite <- Htest, (all_finite_nth _ j Hyte), Hv. reflexivity.
  - split; rewrite nth_error_slice by lia; f_equal; lia.
Qed.

(** The run on 27 hourly rows. *)
Lemma test_index_aligned_witness :
  exists g,
    outcome (main null_svr (Some table_27)) = Ok g
    /\ List.length (test_index_95 g) = List.length (y_test (floats g))
    /\ List.length (test_index g) = List.length (y_test (floats g)).
Proof.
  assert (Hex : exists g, outcome (main null_svr (Some table_27)) = Ok g)
    by (eexists; lazy; reflexivity).
  destruct Hex as [g Hrun]. exists g. split; [exact Hrun|].
  destruct (test_index_aligned null_svr table_27 Hrun) as (H95 & H203 & _).
  split; [exact H95 | exact H203].
Defined.

(** ** Runs that reach the end *)



Lemma In_firstn_keeps {A : Type} (n : nat) (l : list A) (x : A) :
  In x (firstn n l) -> In x l.
Proof.
  intros H. rewrite <- (firstn_skipn n l). apply in_or_app. now left.
Qed.

(** From 26 rows on no array of the partition is empty. *)
Lemma partition_sizes_nonempty (t : DataFrame) :
  n_lags + 2 <= List.length (rows t) ->
  let p := parts (prepared_of t) in
  X_train p <> [] /\ X_test p <> [] /\ y_train p <> [] /\ y_test p <> []
  /\ List.length (y_train p) = List.length (X_train p)
  /\ List.length (y_test p) = List.length (X_test p).
Proof.
  intros HN. cbv zeta.
  destruct (prepared_sizes t) as (_ & _ & _ & _ & Htr & Hte & Hytr & Hyte).
  cbv zeta in *.
  set (M := Nat.min tail_size (List.length (rows t)) - n_lags) in *.
  assert (HM : 2 <= M) by (unfold M, tail_size, n_lags in *; lia).
  pose proof (floor_80_percent_pos HM) as Hb0.
  pose proof (@floor_80_percent_lt M ltac:(lia)) as HbM.
  assert (Hnil : forall (B : Type) (l : list B), 0 < List.length l -> l <> [])
    by (intros B [|x l] H; [cbn in H; lia | discriminate]).
  repeat split; try (apply Hnil; lia); lia.
Qed.

(** ** A column without any valid value *)

Lemma has_nan_not_finite (X : list (list (option Q))) :
  has_nan X = true -> all_finite (map all_finite X) = None.
Proof.
  unfold has_nan. induction X as [|r X IH]; cbn [existsb map all_finite];
    [discriminate|].
  intros H. apply orb_true_iff in H as [Hr|HX].
  - assert (Hnone : all_finite r = None).
    { induction r as [|[v|] r IHr]; cbn in *; try discriminate.
      - now rewrite IHr.
      - reflexivity. }
    now rewrite Hnone.
  - destruct (all_finite r); [|reflexivity]. now rewrite (IH HX).
Qed.

Lemma run_with_nan_in_training {A : Type} (p : partition (option Q)) :
  X_train p <> [] -> X_test p <> [] -> y_train p <> [] -> y_test p <> [] ->
  has_nan (X_train p) = true ->
  @run_with_nan A p
  = ([Call scaler_X_fit_transform (List.length (X_train p));
      Call scaler_X_transform (List.length (X_test p));
      Call scaler_y_fit_transform (List.length (y_train p));
      Call scaler_y_transform (List.length (y_test p));
      Print (Text ""); Print (Text "Fitting SVR model...");
      Call svr_model_fit (List.length (X_train p))],
     Raise (ValueError svr_model_fit)).
Proof.
  intros H1 H2 H3 H4 Hnan. unfold run_with_nan, require_samples.
  rewrite Hnan.
  destruct (X_train p); [congruence|]. destruct (X_test p); [congruence|].
  destruct (y_train p); [congruence|]. destruct (y_test p); [congruence|].
  reflexivity.
Qed.

Lemma missing_series (t : DataFrame) :
  Forall (fun r => value r irradiance = None) (rows t) ->
  Forall (eq None) (data (prepared_of t) irradiance).
Proof.
  intros Hv. unfold prepared_of. cbn [data].
  assert (Hsel : Forall (eq None) (select (sort_index (rows t)) irradiance)).
  { unfold select. apply Forall_map.
    apply sort_index_Forall. eapply Forall_impl; [|exact Hv].
    intros r Hr. now rewrite Hr. }
  assert (Himp : imputed (select (sort_index (rows t))) irradiance
                 = select (sort_index (rows t)) irradiance).
  { unfold imputed, ffill_bfill.
    destruct (0 <? isnull_sum_sum _); [now apply fill_all_missing | reflexivity]. }
  rewrite Himp. unfold tail. now apply Forall_skipn_keeps.
Qed.

(** From 26 rows on, a series without any valid value gets through the
    scalers and is refused by the estimator. *)
Lemma run_missing_series (SVR : Estimator) (t : DataFrame) :
  Forall (eq None) (data (prepared_of t) irradiance) ->
  n_lags + 2 <= List.length (rows t) ->
  exists b n,
    0 < b /\ 0 < n
    /\ run_model SVR t (prepared_of t)
       = ([Call scaler_X_fit_transform b; Call scaler_X_transform n;
           Call scaler_y_fit_transform b; Call scaler_y_transform n;
           Print (Text ""); Print (Text "Fitting SVR model...");
           Call svr_model_fit b],
          Raise (ValueError svr_model_fit)).
Proof.
  intros Hs HN.
  destruct (partition_sizes_nonempty t HN) as (Hxtr & Hxte & Hytr & Hyte & Hl1 & Hl2).
  assert (Hnan : has_nan (X_train (parts (prepared_of t))) = true).
  { revert Hxtr. unfold prepared_of in *.
    cbn [data parts X_train] in *.
    set (s := tail tail_size _) in *.
    intros Hxtr. unfold has_nan. apply existsb_exists.
    destruct (firstn _ (map (window s) _)) as [|r rest] eqn:Hr; [congruence|].
    exists r. split; [now left|].
    assert (Hin : In r (map (window s) (range n_lags (List.length s)))).
    { eapply (In_firstn_keeps _ _ _). rewrite Hr. now left. }
    apply in_map_iff in Hin as (i & <- & Hi).
    unfold range in Hi. apply in_seq in Hi.
    apply existsb_exists. exists None. split; [|reflexivity].
    assert (Hw : Forall (eq None) (window s i)).
    { unfold window, slice. now apply Forall_firstn_keeps, Forall_skipn_keeps. }
    assert (Hlen : List.length (window s i) = n_lags).
    { unfold window. rewrite slice_length. lia. }
    destruct (window s i) as [|x w]; [discriminate|].
    inversion Hw; subst. now left. }
  exists (List.length (X_train (parts (prepared_of t)))),
         (List.length (X_test (parts (prepared_of t)))).
  assert (Hpos : forall (B : Type) (l : list B), l <> [] -> 0 < List.length l)
    by (intros B [|x l] H; [congruence | cbn; lia]).
  split; [now apply Hpos|]. split; [now apply Hpos|].
  unfold run_model, finite_partition.
  rewrite (has_nan_not_finite _ Hnan).
  rewrite (@run_with_nan_in_training globals _ Hxtr Hxte Hytr Hyte Hnan).
  now rewrite Hl1, Hl2.
Qed.

(** X9. When no row has an irradiance reading, filling cannot repair the
    column: the series stays entirely missing.  With at least 26 rows the
    run then passes the four scaler calls, prints that it is fitting the
    model, and ends in the ValueError that [svr_model.fit] raises on NaN;
    the model is never reported as fitted and nothing is predicted. *)
Theorem missing_irradiance_fails_in_estimator (SVR : Estimator) (t : DataFrame) :
  Forall (fun r => value r irradiance = None) (rows t) ->
  n_lags + 2 <= List.length (rows t) ->
  Forall (eq None) (data (prepared_of t) irradiance)
  /\ outcome (main SVR (Some t)) = Raise (ValueError svr_model_fit)
  /\ exists b n,
       0 < b /\ 0 < n
       /\ trace (main SVR (Some t))
          = Print (Text "Dataset loaded successfully.")
              :: trace (preprocess t)
              ++ [Call scaler_X_fit_transform b; Call scaler_X_transform n;
                  Call scaler_y_fit_transform b; Call scaler_y_transform n;
                  Print (Text ""); Print (Text "Fitting SVR model...");
                  Call svr_model_fit b].
Proof.
  intros Hmiss HN.
  pose proof (@missing_series t Hmiss) as Hs.
  split; [exact Hs|].
  destruct (run_missing_series SVR t Hs HN) as (b & n & Hb & Hn & Hrun).
  rewrite main_run, Hrun. cbn [trace outcome fst snd].
  split; [reflexivity|]. exists b, n. repeat split; assumption.
Qed.

(** A table with dates and towns and no irradiance reading. *)
Lemma missing_irradiance_fails_in_estimator_witness :
  Forall (fun r => value r irradiance = None) (rows table_no_irradiance)
  /\ n_lags + 2 <= List.length (rows table_no_irradiance)
  /\ outcome (main null_svr (Some table_no_irradiance))
     = Raise (ValueError svr_model_fit).
Proof.
  assert (H1 : Forall (fun r => value r irradiance = None)
                      (rows table_no_irradiance)).
  { cbn [rows table_no_irradiance]. apply Forall_map, Forall_forall.
    intros i _. reflexivity. }
  assert (H2 : n_lags + 2 <= List.length (rows table_no_irradiance))
    by (vm_compute; lia).
  split; [exact H1|]. split; [exact H2|].
  exact (proj1 (proj2 (@missing_irradiance_fails_in_estimator
                         null_svr table_no_irradiance H1 H2))).
Defined.

(** ** The scaled training labels *)

Lemma scaled_labels_map (mn mx : Q) (l : list Q) :
  flatten (map (transform_row {| data_min_ := [mn]; data_max_ := [mx] |})
               (reshape_column l))
  = map (fun v => v * ((1 - 0) / handle_zeros_in_scale (mx - mn))
                  + (0 - mn * ((1 - 0) / handle_zeros_in_scale (mx - mn))))%Q l.
Proof.
  unfold flatten, reshape_column.
  induction l as [|v l IH]; cbn [map concat]; [reflexivity|].
  rewrite IH. reflexivity.
Qed.

Lemma constant_label_image (mn mx v : Q) :
  (mx == mn)%Q -> (v == mn)%Q ->
  (v * ((1 - 0) / handle_zeros_in_scale (mx - mn))
   + (0 - mn * ((1 - 0) / handle_zeros_in_scale (mx - mn))) == 0)%Q.
Proof.
  intros Hc Hv. unfold handle_zeros_in_scale.
  assert (Hz : Qle_bool (10 * float64_eps) (mx - mn) = false).
  { destruct (Qle_bool (10 * float64_eps) (mx - mn)) eqn:Hb; [|reflexivity].
    apply Qle_bool_iff in Hb.
    assert (He : (0 < 10 * float64_eps)%Q) by reflexivity. lra. }
  rewrite Hz, Hv. field.
Qed.

(** X10. When all training labels are equal, the label scaler does not
    divide by their zero range: on well-shaped arrays the scaling stage
    succeeds, gives one scaled value per training label, and maps every
    training label to 0. *)
Theorem constant_training_labels_scale_to_zero (w : nat) (p : partition Q) :
  well_shaped w p ->
  (forall a b, In a (y_train p) -> In b (y_train p) -> a == b)%Q ->
  exists s,
    outcome (scale p) = Ok s
    /\ List.length (y_train_scaled s) = List.length (y_train p)
    /\ Forall (fun v => v == 0)%Q (y_train_scaled s).
Proof.
  intros Hws Hconst. exists (scaled_of p). split; [exact (outcome_scale Hws)|].
  destruct (fit_labels scaler_y_fit_transform (train_labels Hws))
    as (mn & mx & Hfit & Hmn & Hmx & Hbounds).
  rewrite (fit_nonempty _ (reshape_column_nonempty (train_labels Hws))) in Hfit.
  unfold fitted_on in Hfit. injection Hfit as Hmin Hmax.
  unfold scaled_of, fitted_on. cbn [y_train_scaled].
  rewrite Hmin, Hmax, scaled_labels_map.
  split; [apply length_map|].
  apply Forall_map, Forall_forall. intros v Hv.
  apply constant_label_image; now apply Hconst.
Qed.

(** The training labels 4, 4, 4 of [partition_constant]. *)
Lemma constant_training_labels_scale_to_zero_witness :
  well_shaped 2 partition_constant
  /\ exists s,
       outcome (scale partition_constant) = Ok s
       /\ Forall (fun v => v == 0)%Q (y_train_scaled s).
Proof.
  assert (Ha : well_shaped 2 partition_constant)
    by (constructor; cbn; try discriminate; repeat constructor).
  assert (Hc : (forall a b, In a (y_train partition_constant) ->
                            In b (y_train partition_constant) -> a == b)%Q).
  { cbn [y_train partition_constant In]. intros a b Ha' Hb'.
    destruct Ha' as [<-|[<-|[<-|[]]]]; destruct Hb' as [<-|[<-|[<-|[]]]];
      reflexivity. }
  split; [exact Ha|].
  destruct (@constant_training_labels_scale_to_zero 2 partition_constant Ha Hc)
    as (s & Hs & _ & Hzero).
  exists s. split; [exact Hs | exact Hzero].
Defined.

(** ** The join with the towns *)

Lemma filter_none {A : Type} (f : A -> bool) (l : list A) :
  (forall x, In x l -> f x = false) -> filter f l = [].
Proof.
  induction l as [|a l IH]; intros H; cbn; [reflexivity|].
  rewrite (H a (or_introl eq_refl)). apply IH. intros x Hx. apply H. now right.
Qed.

Lemma filter_unique_date (df : list row) (d0 : row) :
  NoDup (index df) -> In d0 df ->
  filter (fun d => (date d =? date d0)%Z) df = [d0].
Proof.
  unfold index. induction df as [|h df IH]; intros Hnd Hin; [destruct Hin|].
  cbn [map] in Hnd. inversion Hnd as [|? ? Hnotin Hnd']; subst.
  cbn [filter]. destruct Hin as [->|Hin].
  - rewrite Z.eqb_refl. f_equal. apply filter_none.
    intros x Hx. apply Z.eqb_neq. intros Heq. apply Hnotin.
    rewrite <- Heq. now apply in_map.
  - assert (Hne : date h <> date d0).
    { intros Heq. apply Hnotin. rewrite Heq. now apply in_map. }
    apply Z.eqb_neq in Hne. rewrite Hne. now apply IH.
Qed.

(** X11. When no date occurs twice in the table and every test date is a
    date of the table, the left join with the towns has exactly one row
    per test row, in the same order, and each carries the town of the one
    table row with its date. *)
Theorem join_town_on_unique_index (results : list result_row) (df : list row) :
  NoDup (index df) ->
  (forall r, In r results -> In (result_date r) (index df)) ->
  map fst (join_town results df) = results
  /\ (forall x, In x (join_town results df) ->
      exists d, In d df /\ date d = result_date (fst x) /\ snd x = town d).
Proof.
  intros Hnd Hdates. unfold join_town.
  induction results as [|r results IH]; cbn [flat_map map].
  - split; [reflexivity | intros x []].
  - destruct IH as [IHmap IHin];
      [intros r' Hr'; apply Hdates; now right|].
    destruct (proj1 (in_map_iff _ _ _) (Hdates r (or_introl eq_refl)))
      as (d0 & Hd0 & Hin0).
    rewrite <- Hd0, (@filter_unique_date df d0 Hnd Hin0). cbn [map app].
    split; [cbn [fst]; f_equal; exact IHmap|].
    intros x [<-|Hx]; [|apply IHin; exact Hx].
    exists d0. cbn [fst snd]. repeat split; assumption.
Qed.

(** Two test rows joined with a table of 30 hourly rows. *)
Lemma join_town_on_unique_index_witness :
  NoDup (index (rows table_night))
  /\ map fst (join_town [{| result_date := 28; actual := 0; predicted := 1 |};
                         {| result_date := 29; actual := 0; predicted := 2 |}]
                        (rows table_night))
     = [{| result_date := 28; actual := 0; predicted := 1 |};
        {| result_date := 29; actual := 0; predicted := 2 |}].
Proof.
  assert (Hnd : NoDup (index (rows table_night))).
  { vm_compute.
    repeat (constructor; [intros H; cbn in H; intuition discriminate|]).
    constructor. }
  split; [exact Hnd|].
  apply (@join_town_on_unique_index
           [{| result_date := 28; actual := 0; predicted := 1 |};
            {| result_date := 29; actual := 0; predicted := 2 |}]
           (rows table_night) Hnd).
  intros r [<-|[<-|[]]]; vm_compute; tauto.
Defined.

(** ** Metrics by town *)

Lemma insert_key_In (k k' : string) (ks : list string) :
  In k (insert_key k' ks) <-> k = k' \/ In k ks.
Proof.
  induction ks as [|h ks IH]; cbn [insert_key].
  - cbn. intuition.
  - destruct (String.compare k' h) eqn:Hc.
    + apply String.compare_eq_iff in Hc. subst h. cbn. intuition.
    + cbn. intuition.
    + cbn [In]. rewrite IH. intuition.
Qed.

Lemma insert_key_sorted (k : string) (ks : list string) :
  StronglySorted OrderedTypeEx.String_as_OT.lt ks ->
  StronglySorted OrderedTypeEx.String_as_OT.lt (insert_key k ks).
Proof.
  induction 1 as [|h ks Hs IH Hall]; cbn [insert_key].
  - repeat constructor.
  - destruct (String.compare k h) eqn:Hc.
    + now constructor.
    + apply OrderedTypeEx.String_as_OT.cmp_lt in Hc.
      constructor; [now constructor|].
      constructor; [exact Hc|].
      eapply Forall_impl; [|exact Hall].
      intros x Hx. eapply OrderedTypeEx.String_as_OT.lt_trans; eassumption.
    + assert (Hlt : OrderedTypeEx.String_as_OT.lt h k).
      { apply OrderedTypeEx.String_as_OT.cmp_lt.
        unfold OrderedTypeEx.String_as_OT.cmp.
        rewrite String.compare_antisym, Hc. reflexivity. }
      constructor; [exact IH|].
      apply Forall_forall. intros x Hx. apply insert_key_In in Hx as [->|Hx];
        [exact Hlt|].
      rewrite Forall_forall in Hall. now apply Hall.
Qed.

Lemma group_keys_In (j : list (result_row * option string)) (k : string) :
  In k (group_keys j) <-> exists x, In (x, Some k) j.
Proof.
  unfold group_keys. induction j as [|[x [k'|]] j IH]; cbn [fold_right snd].
  - split; [intros [] | intros [x []]].
  - rewrite insert_key_In, IH. split.
    + intros [->|[y Hy]]; [exists x; now left | exists y; now right].
    + intros [y [Hy|Hy]]; [left; congruence | right; now exists y].
  - rewrite IH. split.
    + intros [y Hy]. exists y. now right.
    + intros [y [Hy|Hy]]; [discriminate | now exists y].
Qed.

Lemma group_keys_sorted (j : list (result_row * option string)) :
  StronglySorted OrderedTypeEx.String_as_OT.lt (group_keys j).
Proof.
  unfold group_keys. induction j as [|[x [k'|]] j IH]; cbn [fold_right snd].
  - constructor.
  - now apply insert_key_sorted.
  - exact IH.
Qed.

Lemma strictly_sorted_NoDup (ks : list string) :
  StronglySorted OrderedTypeEx.String_as_OT.lt ks -> NoDup ks.
Proof.
  induction 1 as [|h ks Hs IH Hall]; constructor; [|exact IH].
  intros Hin. rewrite Forall_forall in Hall.
  apply (OrderedTypeEx.String_as_OT.lt_not_eq h h (Hall h Hin)). reflexivity.
Qed.

Lemma group_In (j : list (result_row * option string)) (k : string)
    (x : result_row) :
  In x (group j k) <-> In (x, Some k) j.
Proof.
  unfold group. rewrite in_map_iff. split.
  - intros ([y [k'|]] & <- & Hy); apply filter_In in Hy as [Hy Hk];
      [|discriminate].
    apply String.eqb_eq in Hk. now subst k'.
  - intros Hx. exists (x, Some k). split; [reflexivity|].
    apply filter_In. split; [exact Hx | apply String.eqb_refl].
Qed.

Lemma group_metrics_nonempty (g : list result_row) :
  g <> [] -> exists tm, group_metrics g = Ok tm
                        /\ MAPE tm = mape_by_town (map actual g) (map predicted g).
Proof.
  intros Hne. unfold group_metrics, mean_squared_error, mean_absolute_error.
  rewrite !check_consistent_ok;
    try (now rewrite !length_map);
    try (destruct g; [congruence | discriminate]).
  eexists. split; reflexivity.
Qed.

Lemma metrics_by_town_total (j : list (result_row * option string))
    (keys : list string) :
  (forall k, In k keys -> group j k <> []) ->
  exists m, metrics_by_town j keys = Ok m /\ map fst m = keys
            /\ forall k tm, In (k, tm) m -> group_metrics (group j k) = Ok tm.
Proof.
  induction keys as [|k keys IH]; intros Hne; cbn [metrics_by_town].
  - exists []. repeat split. intros k tm [].
  - destruct (group_metrics_nonempty (Hne k (or_introl eq_refl)))
      as (tm & Htm & _).
    destruct IH as (m & Hm & Hkeys & Hall);
      [intros k' Hk'; apply Hne; now right|].
    rewrite Htm, Hm. exists ((k, tm) :: m). cbn [map fst].
    split; [reflexivity|]. split; [now rewrite Hkeys|].
    intros k' tm' [Heq|Hin]; [now injection Heq as <- <- | now apply Hall].
Qed.

Lemma results_frame_total (y_test predictions : list Q) : forall test_index,
  List.length predictions = List.length y_test ->
  List.length test_index = List.length y_test ->
  exists results,
    results_frame y_test predictions test_index = Ok results
    /\ map result_date results = test_index
    /\ map actual results = y_test
    /\ map predicted results = predictions.
Proof.
  revert predictions.
  induction y_test as [|a y IH]; intros [|p ps] [|d ds] Hp Hd;
    cbn in Hp, Hd; try discriminate.
  - exists []. repeat split.
  - destruct (IH ps ds) as (rs & Hrs & H1 & H2 & H3); [lia | lia|].
    cbn [results_frame]. rewrite Hrs. eexists. split; [reflexivity|].
    cbn [map result_date actual predicted]. now rewrite H1, H2, H3.
Qed.

(** X12. With a 'town' column, one prediction and one time stamp per test
    label, a non-empty test set whose dates are dates of the table, and a
    town in every row of the table, the town analysis does not raise: it
    shows its figure and returns one row of metrics per distinct town of
    the joined test rows, the towns in strictly increasing order without
    repetition, each row computed from the non-empty group of that town. *)
Theorem town_metrics_per_town (y_test predictions : list Q)
    (test_index : list Z) (df : list row) :
  List.length predictions = List.length y_test ->
  List.length test_index = List.length y_test ->
  y_test <> [] ->
  (forall d, In d test_index -> In d (index df)) ->
  Forall (fun r => town r <> None) df ->
  exists results m,
    results_frame y_test predictions test_index = Ok results
    /\ analyze_town_performance y_test predictions test_index true df
       = ([Show "Model Performance Metrics by Town"], Ok (Some m))
    /\ m <> []
    /\ StronglySorted OrderedTypeEx.String_as_OT.lt (map fst m)
    /\ NoDup (map fst m)
    /\ (forall k, In k (map fst m)
                  <-> exists x, In (x, Some k) (join_town results df))
    /\ (forall k tm, In (k, tm) m ->
        group (join_town results df) k <> []
        /\ group_metrics (group (join_town results df) k) = Ok tm).
Proof.
  intros Hp Hd Hne Hdates Htowns.
  destruct (results_frame_total y_test predictions test_index Hp Hd)
    as (results & Hres & Hrd & _ & _).
  set (j := join_town results df).
  assert (Hgroups : forall k, In k (group_keys j) -> group j k <> []).
  { intros k Hk. apply group_keys_In in Hk as [x Hx].
    apply group_In in Hx. intros Hnil. now rewrite Hnil in Hx. }
  destruct (metrics_by_town_total j (group_keys j) Hgroups)
    as (m & Hm & Hkeys & Hall).
  exists results, m. split; [exact Hres|].
  split.
  { unfold analyze_town_performance, lift.
    cbn [negb bind]. rewrite Hres. fold j. rewrite Hm. reflexivity. }
  split.
  { (* a test row has a town, so there is a group *)
    assert (Hsome : exists r, In r results).
    { destruct results as [|r rs]; [|exists r; now left].
      cbn in Hrd. subst test_index.
      destruct y_test; [congruence | discriminate]. }
    destruct Hsome as [r Hr].
    assert (Hin : In (result_date r) (index df)).
    { apply Hdates. rewrite <- Hrd. now apply in_map. }
    apply in_map_iff in Hin as (d0 & Hd0 & Hin0).
    rewrite Forall_forall in Htowns.
    destruct (town d0) as [k|] eqn:Hk; [|now elim (Htowns d0 Hin0)].
    assert (Hj : In (r, Some k) j).
    { unfold j, join_town. apply in_flat_map. exists r. split; [exact Hr|].
      assert (Hmatch : In d0 (filter (fun d => (date d =? result_date r)%Z) df)).
      { apply filter_In. split; [exact Hin0 | now apply Z.eqb_eq]. }
      destruct (filter _ df) as [|h l] eqn:Hf; [destruct Hmatch|].
      apply in_map_iff. exists d0. split; [now rewrite Hk | exact Hmatch]. }
    assert (Hkey : In k (group_keys j)) by (apply group_keys_In; eauto).
    intros Hnil. rewrite Hnil in Hkeys. cbn [map] in Hkeys.
    rewrite <- Hkeys in Hkey. destruct Hkey. }
  rewrite Hkeys.
  split; [apply group_keys_sorted|].
  split; [apply strictly_sorted_NoDup, group_keys_sorted|].
  split; [apply group_keys_In|].
  intros k tm Hin. split; [|now apply Hall].
  apply Hgroups. rewrite <- Hkeys. apply in_map_iff. now exists (k, tm).
Qed.

(** Two test labels of a town at night. *)
Lemma town_metrics_per_town_witness :
  List.length [1; 2]%Q = List.length [0; 0]%Q
  /\ List.length [28; 29]%Z = List.length [0; 0]%Q
  /\ [0; 0]%Q <> []
  /\ (forall d, In d [28; 29]%Z -> In d (index (rows table_night)))
  /\ Forall (fun r => town r <> None) (rows table_night)
  /\ exists m,
       analyze_town_performance [0; 0]%Q [1; 2]%Q [28; 29]%Z true
                                (rows table_night)
       = ([Show "Model Performance Metrics by Town"], Ok (Some m))
       /\ m <> [] /\ NoDup (map fst m).
Proof.
  assert (H3 : [0; 0]%Q <> []) by discriminate.
  assert (H4 : forall d, In d [28; 29]%Z -> In d (index (rows table_night)))
    by (intros d [<-|[<-|[]]]; vm_compute; tauto).
  assert (H5 : Forall (fun r => town r <> None) (rows table_night)).
  { cbn [rows table_night]. unfold hourly. apply Forall_map, Forall_forall.
    intros i _. cbn. discriminate. }
  split; [reflexivity|]. split; [reflexivity|]. split; [exact H3|].
  split; [exact H4|]. split; [exact H5|].
  destruct (@town_metrics_per_town [0; 0]%Q [1; 2]%Q [28; 29]%Z
              (rows table_night) eq_refl eq_refl H3 H4 H5)
    as (results & m & _ & Hrun & Hne & _ & Hnd & _).
  exists m. split; [exact Hrun|]. split; [exact Hne | exact Hnd].
Defined.

(** ** Complete or missing columns *)

Lemma valid_value_or_all_missing {A : Type} (s : list (option A)) :
  (exists v, In (Some v) s) \/ Forall (eq None) s.
Proof.
  induction s as [|[v|] s [IH|IH]].
  - right. constructor.
  - left. exists v. now left.
  - left. exists v. now left.
  - left. destruct IH as [v Hv]. exists v. now right.
  - right. now constructor.
Qed.

(** X13. After the imputation step each column is complete or entirely
    missing, whatever the other columns hold: a column with at least one
    valid value has no missing value left, and a column without any valid
    value is unchanged. *)
Theorem imputed_column_complete_or_missing (data : frame) (c : column) :
  ((exists v, In (Some v) (data c)) -> Forall notnull (imputed data c))
  /\ (Forall (eq None) (data c) -> imputed data c = data c)
  /\ (Forall notnull (imputed data c) \/ Forall (eq None) (imputed data c)).
Proof.
  assert (Hvalid : (exists v, In (Some v) (data c)) ->
                   Forall notnull (imputed data c)).
  { intros Hv. unfold imputed.
    destruct (Nat.ltb_spec 0 (isnull_sum_sum data)) as [Hpos|Hzero].
    - now apply ffill_bfill_valid.
    - apply isnull_sum_zero. apply isnull_sum_sum_zero. lia. }
  assert (Hmissing : Forall (eq None) (data c) -> imputed data c = data c).
  { intros Hm. unfold imputed, ffill_bfill.
    destruct (0 <? isnull_sum_sum data);
      [now apply fill_all_missing | reflexivity]. }
  split; [exact Hvalid|]. split; [exact Hmissing|].
  destruct (valid_value_or_all_missing (data c)) as [Hv|Hm].
  - left. now apply Hvalid.
  - right. now rewrite Hmissing.
Qed.

(** ** How much data the first scaler needs *)

Lemma finite_partition_of_valid_series (t : DataFrame) :
  Forall notnull (data (prepared_of t) irradiance) ->
  n_lags + 2 <= List.length (rows t) ->
  exists p, finite_partition (parts (prepared_of t)) = Some p
            /\ well_shaped n_lags p.
Proof.
  intros Hs HN.
  destruct (prepared_sizes t) as (_ & _ & _ & _ & Hltr & Hlte & Hlytr & Hlyte).
  cbv zeta in *.
  set (M := Nat.min tail_size (List.length (rows t)) - n_lags) in *.
  assert (HM : 2 <= M) by (unfold M, tail_size, n_lags in *; lia).
  pose proof (floor_80_percent_pos HM) as Hb0.
  pose proof (@floor_80_percent_lt M ltac:(lia)) as HbM.
  revert Hltr Hlte Hlytr Hlyte.
  unfold prepared_of in *. cbn [data parts X_train X_test y_train y_test] in *.
  set (s := tail tail_size _) in *.
  destruct (windows_valid Hs) as [HXv HXw].
  set (Xs := map (window s) _) in *.
  set (b := floor_80_percent (List.length Xs)).
  intros Hltr Hlte Hlytr Hlyte.
  destruct (@all_finite_matrix_valid n_lags (firstn b Xs))
    as (xtr & Hxtr & Hlxtr & Hrtr);
    [now apply Forall_firstn_keeps | now apply Forall_firstn_keeps|].
  destruct (@all_finite_matrix_valid n_lags (skipn b Xs))
    as (xte & Hxte & Hlxte & Hrte);
    [now apply Forall_skipn_keeps | now apply Forall_skipn_keeps|].
  destruct (@all_finite_valid _ (firstn b (skipn n_lags s))) as [ytr Hytr];
    [now apply Forall_firstn_keeps, Forall_skipn_keeps|].
  destruct (@all_finite_valid _ (skipn b (skipn n_lags s))) as [yte Hyte];
    [now do 2 apply Forall_skipn_keeps|].
  exists {| X_train := xtr; X_test := xte; y_train := ytr; y_test := yte |}.
  unfold finite_partition. cbn [X_train X_test y_train y_test].
  rewrite Hxtr, Hxte, Hytr, Hyte. split; [reflexivity|].
  apply all_finite_length in Hytr, Hyte.
  fold b in Hltr, Hlte, Hlytr, Hlyte.
  assert (Hnil : forall (B : Type) (l : list B), 0 < List.length l -> l <> [])
    by (intros B [|x l] H; [cbn in H; lia | discriminate]).
  constructor; cbn [X_train X_test y_train y_test]; auto; apply Hnil; lia.
Qed.

Lemma fit_predict_raises (SVR : Estimator) (p : partition Q) (s : scaled) :
  not_from_first_scaler (outcome (fit_predict SVR p s)).
Proof.
  unfold not_from_first_scaler, fit_predict.
  do 5 (rewrite outcome_bind; cbn [print emit outcome snd]).
  rewrite outcome_bind. unfold lift, inverse_transform. cbn [outcome snd].
  destruct (reshape_column _); [discriminate|].
  destruct (n_features_ok _ _); discriminate.
Qed.

Lemma evaluate_raises (y_test predictions : list Q) :
  not_from_first_scaler (outcome (evaluate y_test predictions)).
Proof.
  unfold not_from_first_scaler, evaluate.
  rewrite outcome_bind; cbn [print emit outcome snd].
  rewrite outcome_bind. unfold lift, mean_squared_error, mean_absolute_error,
    check_consistent. cbn [outcome snd].
  destruct ((List.length y_test =? List.length predictions)
            && negb (List.length y_test =? 0)); [|discriminate].
  rewrite outcome_bind; cbn [print emit outcome snd].
  rewrite outcome_bind. cbn [outcome snd].
  do 4 (rewrite outcome_bind; cbn [print emit outcome snd]).
  discriminate.
Qed.

Lemma results_frame_raises (y_test predictions : list Q) : forall test_index,
  not_from_first_scaler (results_frame y_test predictions test_index).
Proof.
  unfold not_from_first_scaler. revert predictions.
  induction y_test as [|a y IH]; intros [|p ps] [|d ds];
    cbn [results_frame]; try discriminate.
  specialize (IH ps ds). destruct (results_frame y ps ds);
    [discriminate | congruence | discriminate].
Qed.

Lemma group_metrics_raises (g : list result_row) :
  not_from_first_scaler (group_metrics g).
Proof.
  unfold not_from_first_scaler, group_metrics, mean_squared_error,
    mean_absolute_error, check_consistent.
  destruct ((List.length (map actual g) =? List.length (map predicted g))
            && negb (List.length (map actual g) =? 0)); discriminate.
Qed.

Lemma metrics_by_town_raises (j : list (result_row * option string))
    (keys : list string) :
  not_from_first_scaler (metrics_by_town j keys).
Proof.
  unfold not_from_first_scaler.
  induction keys as [|k keys IH]; cbn [metrics_by_town]; [discriminate|].
  pose proof (group_metrics_raises (group j k)) as Hg.
  unfold not_from_first_scaler in Hg.
  destruct (group_metrics (group j k)); [|congruence|discriminate].
  destruct (metrics_by_town j keys); [discriminate | congruence | discriminate].
Qed.

Lemma analyze_town_performance_raises (y_test predictions : list Q)
    (test_index : list Z) (town_column : bool) (df : list row) :
  not_from_first_scaler
    (outcome (analyze_town_performance y_test predictions test_index
                                       town_column df)).
Proof.
  unfold not_from_first_scaler, analyze_town_performance.
  destruct town_column; cbn [negb]; [|discriminate].
  rewrite outcome_bind. unfold lift at 1. cbn [outcome snd].
  pose proof (results_frame_raises y_test predictions test_index) as Hr.
  unfold not_from_first_scaler in Hr.
  destruct (results_frame y_test predictions test_index) as [rs| |];
    [|congruence|discriminate].
  rewrite outcome_bind. unfold lift. cbn [outcome snd].
  pose proof (metrics_by_town_raises (join_town rs df)
                (group_keys (join_town rs df))) as Hm.
  unfold not_from_first_scaler in Hm.
  destruct (metrics_by_town _ _); [|congruence|discriminate].
  rewrite outcome_bind; cbn [print emit outcome snd ret]. discriminate.
Qed.

Lemma run_model_after_scale (SVR : Estimator) (t : DataFrame) (pre : prepared)
    (p : partition Q) :
  finite_partition (parts pre) = Some p -> well_shaped n_lags p ->
  not_from_first_scaler (outcome (run_model SVR t pre)).
Proof.
  intros Hfin Hws. unfold run_model. rewrite Hfin.
  rewrite outcome_bind, (outcome_scale Hws).
  rewrite outcome_bind.
  pose proof (fit_predict_raises SVR p (scaled_of p)) as Hfp.
  unfold not_from_first_scaler in *.
  destruct (outcome (fit_predict SVR p (scaled_of p))) as [pr| |];
    [|intros H; injection H as ->; now apply Hfp|discriminate].
  rewrite outcome_bind.
  pose proof (evaluate_raises (y_test p) pr) as Hev.
  unfold not_from_first_scaler in *.
  destruct (outcome (evaluate (y_test p) pr)) as [m| |];
    [|intros H; injection H as ->; now apply Hev|discriminate].
  do 8 (rewrite outcome_bind; cbn [emit print outcome snd]).
  rewrite outcome_bind.
  match goal with
  | |- context [analyze_town_performance ?a ?b ?c ?d ?e] =>
      pose proof (analyze_town_performance_raises a b c d e) as Han;
      unfold not_from_first_scaler in Han;
      destruct (outcome (analyze_town_performance a b c d e)) as [tm| |]
  end; [|intros H; injection H as ->; now apply Han|discriminate].
  cbn [ret outcome snd]. discriminate.
Qed.

(** X14. Whatever the estimator and the readings, a run ends in the
    ValueError of [scaler_X.fit_transform] exactly when the file has fewer
    than 26 rows: with 26 rows or more the first scaler always gets a
    training set. *)
Theorem first_scaler_needs_26_rows (SVR : Estimator) (t : DataFrame) :
  outcome (main SVR (Some t)) = Raise (ValueError scaler_X_fit_transform)
  <-> List.length (rows t) < n_lags + 2.
Proof.
  rewrite main_run. cbn [outcome snd]. split.
  - intros Hraise.
    destruct (Nat.lt_ge_cases (List.length (rows t)) (n_lags + 2)) as [|HN];
      [assumption|]. exfalso.
    destruct (imputed_column_complete_or_missing
                (select (sort_index (rows t))) irradiance) as (_ & _ & [Hv|Hm]).
    + destruct (@finite_partition_of_valid_series t) as (p & Hfin & Hws);
        [unfold prepared_of; cbn [data]; unfold tail;
         now apply Forall_skipn_keeps | exact HN|].
      exact (run_model_after_scale SVR t _ Hfin Hws Hraise).
    + destruct (run_missing_series SVR t) as (b & n & _ & _ & Hrun);
        [unfold prepared_of; cbn [data]; unfold tail;
         now apply Forall_skipn_keeps | exact HN|].
      rewrite Hrun in Hraise. discriminate.
  - intros HN.
    assert (Hempty : X_train (parts (prepared_of t)) = []).
    { apply length_zero_iff_nil.
      destruct (prepared_sizes t) as (_ & _ & _ & _ & Htr & _).
      cbv zeta in Htr. rewrite Htr, floor_80_percent_spec.
      apply Nat.div_small. unfold n_lags in *. lia. }
    now rewrite (run_model_empty_train SVR t _ Hempty).
Qed.

(** ** The guard of the imputation step *)

Lemma bfill_valid_id {A : Type} (s : list (option A)) :
  Forall notnull s -> bfill s = s.
Proof.
  induction 1 as [|[v|] s Hx Hs IH]; cbn [bfill]; [reflexivity| |].
  - now rewrite IH.
  - now elim Hx.
Qed.

Lemma fill_valid_id {A : Type} (s : list (option A)) :
  Forall notnull s -> bfill (ffill s) = s.
Proof.
  intros Hs. unfold ffill. rewrite (ffill_from_valid_id Hs).
  now apply bfill_valid_id.
Qed.

Lemma fill_idempotent {A : Type} (s : list (option A)) :
  bfill (ffill (bfill (ffill s))) = bfill (ffill s).
Proof.
  destruct (valid_value_or_all_missing s) as [Hv|Hm].
  - apply fill_valid_id. now apply ffill_bfill_valid.
  - now rewrite !(fill_all_missing Hm).
Qed.

(** X16. The test of line 33 guards the warning, not the data: with or
    without missing values the table the script goes on with is
    [data.ffill().bfill()], a table without missing values is returned as
    it is, and filling a second time changes nothing. *)
Theorem impute_is_fill (data : frame) :
  exists filled,
    outcome (impute data) = Ok filled
    /\ (forall c, filled c = ffill_bfill data c)
    /\ (forall c, ffill_bfill filled c = filled c)
    /\ (isnull_sum_sum data = 0 ->
        filled = data /\ trace (impute data) = []).
Proof.
  exists (imputed data). split; [apply outcome_impute|].
  assert (Hfill : forall c, imputed data c = ffill_bfill data c).
  { intros c. unfold imputed, ffill_bfill.
    destruct (Nat.ltb_spec 0 (isnull_sum_sum data)) as [Hpos|Hzero];
      [reflexivity|].
    symmetry. apply fill_valid_id.
    apply isnull_sum_zero. apply isnull_sum_sum_zero. lia. }
  split; [exact Hfill|]. split.
  - intros c. unfold ffill_bfill at 1. rewrite Hfill. unfold ffill_bfill.
    apply fill_idempotent.
  - intros Hzero. unfold imputed, impute. rewrite Hzero.
    split; reflexivity.
Qed.

(** ** Filling before the split *)

Lemma imputed_fill (data : frame) (c : column) :
  imputed data c = bfill (ffill (data c)).
Proof.
  unfold imputed, ffill_bfill.
  destruct (Nat.ltb_spec 0 (isnull_sum_sum data)) as [Hpos|Hzero];
    [reflexivity|].
  symmetry. apply fill_valid_id.
  apply isnull_sum_zero. apply isnull_sum_sum_zero. lia.
Qed.

Lemma first_valid {A : Type} (s : list (option A)) (v : A) :
  In (Some v) s -> exists k w rest, s = repeat None k ++ Some w :: rest.
Proof.
  induction s as [|[x|] s IH]; intros Hin.
  - destruct Hin.
  - exists 0, x, s. reflexivity.
  - destruct Hin as [H|H]; [discriminate|].
    destruct (IH H) as (k & w & rest & ->). exists (S k), w, rest. reflexivity.
Qed.

Lemma ffill_from_app {A : Type} (a b : list (option A)) : forall last,
  firstn (List.length a) (ffill_from last (a ++ b)) = ffill_from last a.
Proof.
  induction a as [|[x|] a IH]; intros last; cbn; [reflexivity| |];
    now rewrite IH.
Qed.

Lemma fill_from_first_valid {A : Type} (k : nat) (v : A) rest :
  bfill (ffill (repeat None k ++ Some v :: rest))
  = repeat (Some v) k ++ Some v :: ffill_from (Some v) rest.
Proof.
  rewrite ffill_leading, bfill_leading_value. do 2 f_equal.
  apply bfill_valid_id, ffill_from_valid.
Qed.

Lemma firstn_prefix {A : Type} (l1 l2 : list A) :
  firstn (List.length l1) (l1 ++ l2) = l1.
Proof. induction l1 as [|x l1 IH]; cbn; [reflexivity | now rewrite IH]. Qed.

Lemma skipn_prefix {A : Type} (l1 l2 : list A) :
  skipn (List.length l1) (l1 ++ l2) = l2.
Proof. induction l1 as [|x l1 IH]; cbn; [reflexivity | exact IH]. Qed.

(** Up to a row that has a reading before it, the filled series depends
    on the rows before that row only. *)
Lemma fill_of_prefix {A : Type} (s : list (option A)) (q : nat) (v : A) :
  In (Some v) (firstn q s) ->
  firstn q (bfill (ffill s)) = bfill (ffill (firstn q s)).
Proof.
  intros Hin. destruct (Nat.le_gt_cases q (List.length s)) as [Hq|Hq].
  - destruct (@first_valid _ (firstn q s) v Hin) as (k & w & rest & Hpre).
    assert (Hs : s = repeat None k ++ Some w :: (rest ++ skipn q s)).
    { rewrite <- (firstn_skipn q s) at 1. rewrite Hpre.
      rewrite <- app_assoc. reflexivity. }
    assert (Hlen : q = List.length (repeat (Some w) k
                                    ++ Some w :: ffill_from (Some w) rest)).
    { rewrite <- (firstn_length_le s Hq), Hpre.
      rewrite !length_app, !repeat_length. cbn [List.length].
      now rewrite ffill_from_length. }
    rewrite Hpre. rewrite Hs at 1. rewrite !fill_from_first_valid.
    rewrite Hlen at 1. rewrite !length_app, repeat_length.
    rewrite firstn_app, repeat_length, firstn_all2
      by (rewrite repeat_length; lia).
    f_equal.
    replace (k + List.length (Some w :: ffill_from (Some w) rest) - k)
      with (S (List.length rest))
      by (cbn [List.length]; rewrite ffill_from_length; lia).
    cbn [firstn]. f_equal. apply ffill_from_app.
  - rewrite !firstn_all2; [reflexivity | lia|].
    rewrite bfill_length. unfold ffill. rewrite ffill_from_length. lia.
Qed.

(** X6. In every run the training features and labels are exactly what
    the windowing loop builds from the first 24 + train_size values of the
    imputed irradiance series, and the test labels are exactly the values
    after them.  The series is filled before the split (line 35).  When
    some row up to the end of the training period has a reading, the
    training values are the fill of the rows up to there alone: nothing
    of the test period enters them.  When no such row has a reading, the
    back-fill copies the first reading of the test period into every
    training value. *)
Theorem training_set_from_prefix (t : DataFrame) :
  exists pre,
    outcome (preprocess t) = Ok pre
    /\ let s := data pre irradiance in
       let p := n_lags + boundary pre in
       let raw := select (df pre) irradiance in
       let seen := firstn (tail_offset pre + p) raw in
       windowing (firstn p s) = Ok (X_train (parts pre), y_train (parts pre))
       /\ y_test (parts pre) = skipn p s
       /\ firstn p s ++ y_test (parts pre) = s
       /\ ((exists v, In (Some v) seen) ->
           firstn p s = skipn (tail_offset pre) (bfill (ffill seen)))
       /\ (forall k v rest,
             raw = repeat None k ++ Some v :: rest ->
             tail_offset pre + p <= k ->
             firstn p s = repeat (Some v) p).
Proof.
  exists (prepared_of t). split; [apply outcome_preprocess|].
  unfold tail_offset, len, prepared_of.
  cbn [df data boundary parts X_train y_train y_test]. cbn zeta.
  set (rows' := sort_index (rows t)).
  set (raw := select rows' irradiance).
  assert (Hraw : List.length raw = List.length rows')
    by (unfold raw, select; apply length_map).
  rewrite imputed_fill. fold raw.
  set (filled := bfill (ffill raw)).
  assert (Hfilled : List.length filled = List.length raw).
  { unfold filled, ffill. now rewrite bfill_length, ffill_from_length. }
  set (s := tail tail_size filled).
  set (Xs := map (window s) _).
  assert (HX : List.length Xs = List.length s - n_lags)
    by (unfold Xs, range; now rewrite length_map, length_seq).
  pose proof (floor_80_percent_le (List.length Xs)) as Hle.
  set (b := floor_80_percent (List.length Xs)) in *.
  assert (Hy : skipn b (skipn n_lags s) = skipn (n_lags + b) s).
  { rewrite skipn_skipn. f_equal. lia. }
  assert (Hs : List.length s = List.length filled - (List.length filled - tail_size)).
  { unfold s, tail. now rewrite length_skipn. }
  set (o := List.length rows' - List.length s).
  assert (Ho : s = skipn o filled).
  { unfold s at 1, tail. f_equal. unfold o. lia. }
  split; [apply windowing_prefix; lia|].
  split; [exact Hy|].
  split; [rewrite Hy; apply firstn_skipn|].
  split.
  - intros [v Hv]. rewrite Ho, firstn_skipn_comm. f_equal.
    now apply (@fill_of_prefix _ raw (o + (n_lags + b)) v).
  - intros k v rest Hshape Hk. rewrite Ho, firstn_skipn_comm.
    unfold filled. rewrite Hshape, fill_from_first_valid.
    replace k with (o + (n_lags + b) + (k - (o + (n_lags + b)))) by lia.
    rewrite repeat_app, <- app_assoc.
    rewrite <- (repeat_length (Some v) (o + (n_lags + b))) at 1.
    rewrite firstn_prefix, repeat_app.
    rewrite <- (repeat_length (Some v) o) at 1.
    apply skipn_prefix.
Qed.
